(** * multipymenu: the interactive selection menu [MultiPySimpleMenu]

    A shallow embedding of [src/multipymenu/multipysimplemenu.py] and the
    properties its specification states about it.

    Python values are modelled as follows: [int] is [Z] (unbounded), [str]
    is [string], [list[str]] is [list string], [Optional[int]] is
    [option Z].  Everything that touches the terminal goes through a small
    state-and-exception monad that records each external call in a trace. *)

From Stdlib Require Import ZArith List String Ascii Bool Lia Arith.
Import ListNotations.
Local Open Scope string_scope.
Local Open Scope Z_scope.
Local Open Scope list_scope.

Set Implicit Arguments.

(* ================================================================== *)
(** * Python's [re] module, as far as the menu uses it *)
(* ================================================================== *)

(** The menu calls [re.match(re.escape(p), option)].  [re] belongs to the
    Python standard library, not to the repository, so it is modelled
    here from its documentation:

    - [escape] is CPython's: a backslash goes in front of every character
      of [()[]{}?*+-|^$\.&~# \t\n\r\v\f] and nothing else changes;
    - [compile] reads a fragment of the pattern language: literal
      characters, a backslash followed by a non-alphanumeric character
      (that character, literally), [.] (any character but a newline) and
      the postfix repetitions [*], [+] and [?].  A pattern outside the
      fragment (groups, sets, counted repetition, alternation, anchors,
      class escapes) or one Python rejects (dangling backslash, nothing to
      repeat) yields [None];
    - [match_] asks for a match that begins at the first character of
      the subject and may end anywhere, as [re.match] does. *)
Module Re.

Definition ch (n : nat) : ascii := ascii_of_nat n.

(** The characters [re.escape] protects: the printable ones, then tab,
    newline, carriage return, vertical tab and form feed. *)
Definition special_chars : list ascii :=
  list_ascii_of_string "()[]{}?*+-|^$\.&~# "
    ++ [ch 9; ch 10; ch 13; ch 11; ch 12].

Definition is_special (c : ascii) : bool :=
  existsb (Ascii.eqb c) special_chars.

Fixpoint escape (p : string) : string :=
  match p with
  | EmptyString => EmptyString
  | String c rest =>
      if is_special c then String "\" (String c (escape rest))
      else String c (escape rest)
  end.

Inductive atom : Type :=
| Lit (c : ascii)      (* this very character *)
| AnyChar.             (* [.]: any character except a newline *)

Inductive repeat : Type := Once | Star | Plus | Opt.

Definition item : Type := (atom * repeat)%type.

Inductive token : Type :=
| TAtom (a : atom)
| TRepeat (r : repeat).

Definition is_alnum (c : ascii) : bool :=
  let n := nat_of_ascii c in
  ((48 <=? n) && (n <=? 57) || (65 <=? n) && (n <=? 90)
   || (97 <=? n) && (n <=? 122))%nat.

(** Metacharacters whose meaning lies outside the modelled fragment. *)
Definition unsupported_meta (c : ascii) : bool :=
  existsb (Ascii.eqb c) (list_ascii_of_string "()[]{}|^$").

Definition classify (c : ascii) : option token :=
  if Ascii.eqb c "." then Some (TAtom AnyChar)
  else if Ascii.eqb c "*" then Some (TRepeat Star)
  else if Ascii.eqb c "+" then Some (TRepeat Plus)
  else if Ascii.eqb c "?" then Some (TRepeat Opt)
  else if unsupported_meta c then None
  else Some (TAtom (Lit c)).

Fixpoint tokens (p : string) : option (list token) :=
  match p with
  | EmptyString => Some []
  | String c rest =>
      if Ascii.eqb c "\" then
        match rest with
        | EmptyString => None                       (* bad escape *)
        | String d rest' =>
            if is_alnum d then None                 (* \d, \w, \1, ... *)
            else option_map (cons (TAtom (Lit d))) (tokens rest')
        end
      else
        match classify c, tokens rest with
        | Some t, Some ts => Some (t :: ts)
        | _, _ => None
        end
  end.

Fixpoint items (ts : list token) : option (list item) :=
  match ts with
  | [] => Some []
  | TRepeat _ :: _ => None                          (* nothing to repeat *)
  | TAtom a :: TRepeat r :: ts' =>
      option_map (cons (a, r)) (items ts')
  | TAtom a :: ts' => option_map (cons (a, Once)) (items ts')
  end.

Definition compile (p : string) : option (list item) :=
  match tokens p with
  | Some ts => items ts
  | None => None
  end.

Definition atom_accepts (a : atom) (c : ascii) : bool :=
  match a with
  | Lit d => Ascii.eqb d c
  | AnyChar => negb (Ascii.eqb c (ch 10))
  end.

(** [accepts its s]: some prefix of [s] is matched by the sequence
    [its].  The repetitions try every count. *)
Fixpoint accepts (its : list item) : string -> bool :=
  match its with
  | [] => fun _ => true
  | (a, r) :: its' =>
      let k := accepts its' in
      let many :=
        fix many (s : string) : bool :=
          k s || match s with
                 | String c s' => atom_accepts a c && many s'
                 | EmptyString => false
                 end in
      match r with
      | Once => fun s =>
          match s with
          | String c s' => atom_accepts a c && k s'
          | EmptyString => false
          end
      | Opt => fun s =>
          k s || match s with
                 | String c s' => atom_accepts a c && k s'
                 | EmptyString => false
                 end
      | Star => many
      | Plus => fun s =>
          match s with
          | String c s' => atom_accepts a c && many s'
          | EmptyString => false
          end
      end
  end.

(** [re.match(pattern, subject)], seen as a truth value; [None] when the
    pattern does not compile. *)
Definition match_ (pattern subject : string) : option bool :=
  match compile pattern with
  | Some its => Some (accepts its subject)
  | None => None
  end.

Definition literal (p : string) : list item :=
  map (fun c => (Lit c, Once)) (list_ascii_of_string p).

End Re.

(* ================================================================== *)
(** * Collaborators that are not among the sources *)
(* ================================================================== *)

(** Modelled from the spec: [multipymath.clamp] is not among the sources.
    The spec uses it to "clamp [selectedIndex] into
    [[0, max(0, len(VisibleOptions)-1)]]", so the lower bound wins when the
    upper bound lies below it. *)
Definition clamp (n smallest largest : Z) : Z :=
  Z.max smallest (Z.min n largest).

(** Modelled from the spec: [special_keys.SpecialKeys] is not among the
    sources.  A key event "is either a decodable single character or one
    of CONFIRM, ARROW_UP, ARROW_DOWN, SLASH, BACKSPACE, other-ignored". *)
Inductive SpecialKeys : Type :=
| INTRO | ARROW_UP | ARROW_DOWN | SLASH | BACKSPACE | OTHER_KEY.

(** What [readch] hands back: a special key, or a [str]. *)
Inductive Key : Type :=
| Special (k : SpecialKeys)
| Str (s : string).

Definition is_key (k : SpecialKeys) (key : Key) : bool :=
  match key, k with
  | Special INTRO, INTRO | Special ARROW_UP, ARROW_UP
  | Special ARROW_DOWN, ARROW_DOWN | Special SLASH, SLASH
  | Special BACKSPACE, BACKSPACE | Special OTHER_KEY, OTHER_KEY => true
  | _, _ => false
  end.

(** Modelled from the spec: [multipycolors] is not among the sources.  A
    colour or style token is represented by the escape string its
    [.value] holds. *)
Record MultiPyColors : Type := Color { color_value : string }.
Record MultiPyStyles : Type := Style { style_value : string }.

(* ================================================================== *)
(** * The dataclass *)
(* ================================================================== *)

Record MultiPySimpleMenu : Type := Menu {
  options : list string;
  default_option : Z;
  prechar : string;
  clear_on_exit : bool;
  selected_color : MultiPyColors;
  selected_style : MultiPyStyles;
  _selected_option : Z;
  _searching_buffer : string;
  _terminal_last_line_size : Z;
  _terminal_last_column_size : Z
}.

Definition set_selected_option (v : Z) (m : MultiPySimpleMenu) :=
  Menu (options m) (default_option m) (prechar m) (clear_on_exit m)
       (selected_color m) (selected_style m)
       v (_searching_buffer m)
       (_terminal_last_line_size m) (_terminal_last_column_size m).

Definition set_searching_buffer (v : string) (m : MultiPySimpleMenu) :=
  Menu (options m) (default_option m) (prechar m) (clear_on_exit m)
       (selected_color m) (selected_style m)
       (_selected_option m) v
       (_terminal_last_line_size m) (_terminal_last_column_size m).

Definition set_terminal_last_line_size (v : Z) (m : MultiPySimpleMenu) :=
  Menu (options m) (default_option m) (prechar m) (clear_on_exit m)
       (selected_color m) (selected_style m)
       (_selected_option m) (_searching_buffer m)
       v (_terminal_last_column_size m).

Definition set_terminal_last_column_size (v : Z) (m : MultiPySimpleMenu) :=
  Menu (options m) (default_option m) (prechar m) (clear_on_exit m)
       (selected_color m) (selected_style m)
       (_selected_option m) (_searching_buffer m)
       (_terminal_last_line_size m) v.

(** The six fields the docstring documents as arguments. *)
Definition config (m : MultiPySimpleMenu) :=
  (options m, default_option m, prechar m, clear_on_exit m,
   selected_color m, selected_style m).

(* ================================================================== *)
(** * Outcomes, and the option filter and formatter *)
(* ================================================================== *)

Inductive exn : Type :=
| ReError                 (* [re.error]: the pattern does not compile *)
| IndexError              (* indexing an empty [str] *)
| EnvError (tick : nat).  (* raised by an external call *)

(** How a computation ends: with a value, with an exception, or never
    (the blocking read has no more input to deliver). *)
Inductive result (A : Type) : Type :=
| Normal (a : A)
| Raised (e : exn)
| Blocked.
Arguments Raised {A} e.
Arguments Blocked {A}.

(** Python slices and indexing on [str]. *)
Definition drop_first (s : string) : string :=          (* s[1:] *)
  match s with
  | EmptyString => EmptyString
  | String _ rest => rest
  end.

Fixpoint drop_last (s : string) : string :=             (* s[:-1] *)
  match s with
  | EmptyString => EmptyString
  | String _ EmptyString => EmptyString
  | String c rest => String c (drop_last rest)
  end.

Fixpoint last_char (s : string) : option ascii :=       (* s[-1] *)
  match s with
  | EmptyString => None
  | String c EmptyString => Some c
  | String _ rest => last_char rest
  end.

Definition len {A : Type} (l : list A) : Z := Z.of_nat (List.length l).

(** [_searching] (lines 71-74). *)
Definition _searching (self : MultiPySimpleMenu) : bool :=
  (0 <? String.length (_searching_buffer self))%nat.

(** The first loop of [_printable_options] (lines 51-53): the options the
    escaped pattern matches, in the order of [self.options]. *)
Fixpoint matching_options (buffer : string) (opts : list string)
  : result (list string) :=
  match opts with
  | [] => Normal []
  | option :: rest =>
      match Re.match_ (Re.escape (drop_first buffer)) option with
      | None => Raised ReError
      | Some hit =>
          match matching_options buffer rest with
          | Normal available =>
              Normal (if hit then option :: available else available)
          | other => other
          end
      end
  end.

(** [available_options] as it stands when the styling loop begins
    (lines 46-55). *)
Definition available_options (self : MultiPySimpleMenu)
  : result (list string) :=
  if _searching self
  then matching_options (_searching_buffer self) (options self)
  else Normal (options self).

Section Menu.

(** [multipycolors.ENDC], the style-reset marker. *)
Variable ENDC : string.

(** The body of the second loop of [_printable_options] (lines 59-62). *)
Definition style_option (self : MultiPySimpleMenu) (index : Z)
           (option : string) : string :=
  let temp_option :=
    if index =? _selected_option self
    then (color_value (selected_color self)
          ++ style_value (selected_style self) ++ option)%string
    else option in
  (prechar self ++ temp_option ++ ENDC)%string.

(** The second loop of [_printable_options] (lines 58-63);
    [index] is [enumerate]'s counter. *)
Fixpoint styled (self : MultiPySimpleMenu) (index : Z)
         (available : list string) : list string :=
  match available with
  | [] => []
  | option :: rest =>
      style_option self index option :: styled self (index + 1) rest
  end.

(** [_printable_options] (lines 40-64). *)
Definition _printable_options (self : MultiPySimpleMenu)
  : result (list string) :=
  match available_options self with
  | Normal available => Normal (styled self 0 available)
  | Raised e => Raised e
  | Blocked => Blocked
  end.

End Menu.

(* ================================================================== *)
(** * The terminal, and the monad [show] runs in *)
(* ================================================================== *)

(** [os.terminal_size]. *)
Record terminal_size : Type := TerminalSize { columns : Z; lines : Z }.

(** The external calls [show] makes, in the order it makes them.  The
    renderer and the key handler ([multipyterminal]) are not among the
    sources; what they do to the screen is not modelled, only that they
    are called, with which arguments, and whether they raise. *)
Inductive Event : Type :=
| KsInit                                        (* kshandler.init() *)
| KsReadch                                      (* kshandler.readch() *)
| KsDeinit                                      (* kshandler.deinit() *)
| GetTerminalSize                               (* os.get_terminal_size() *)
| PrintLines (printable : list string) (buffer : string)
| DeleteLines (count : Z)
| DeleteAllLines (buffer : string) (terminal_lines : Z)
| ClearTerminal
| CursorBackwards (times : option Z).           (* [None]: the default *)

(** The menu object and the calls made so far, oldest first. *)
Record State : Type := St { self : MultiPySimpleMenu; trace : list Event }.

Definition M (A : Type) : Type := State -> result A * State.

Definition ret {A} (a : A) : M A := fun st => (Normal a, st).

Definition bind {A B} (c : M A) (k : A -> M B) : M B :=
  fun st =>
    match c st with
    | (Normal a, st') => k a st'
    | (Raised e, st') => (Raised e, st')
    | (Blocked, st') => (Blocked, st')
    end.

Notation "x <- c ;; k" := (bind c (fun x => k))
  (at level 61, c at next level, right associativity).
Notation "c ;; k" := (bind c (fun _ => k))
  (at level 61, right associativity).

Definition raise {A} (e : exn) : M A := fun st => (Raised e, st).
Definition block {A} : M A := fun st => (Blocked, st).
Definition get : M MultiPySimpleMenu := fun st => (Normal (self st), st).
Definition modify (f : MultiPySimpleMenu -> MultiPySimpleMenu) : M unit :=
  fun st => (Normal tt, St (f (self st)) (trace st)).

Definition lift {A} (r : result A) : M A := fun st => (r, st).

(** [try: body finally: cleanup].  The cleanup runs when the body returns
    and when it raises; an exception of the cleanup replaces the body's
    outcome.  A body that never finishes never reaches it. *)
Definition try_finally {A} (body : M A) (cleanup : M unit) : M A :=
  fun st =>
    match body st with
    | (Blocked, st') => (Blocked, st')
    | (outcome, st') =>
        match cleanup st' with
        | (Normal _, st'') => (outcome, st'')
        | (Raised e, st'') => (Raised e, st'')
        | (Blocked, st'') => (Blocked, st'')
        end
    end.

Section Session.

Variable ENDC : string.

(** The environment of one run.  The clock is the number of external
    calls made so far: [fault t] tells whether the call made at time [t]
    raises, [geometry t] what the terminal measures at time [t]. *)
Variable fault : nat -> option exn.
Variable geometry : nat -> terminal_size.

(** An external call: it is recorded, then it raises or returns. *)
Definition call (e : Event) : M unit :=
  fun st =>
    let st' := St (self st) (trace st ++ [e]) in
    match fault (List.length (trace st)) with
    | Some x => (Raised x, st')
    | None => (Normal tt, st')
    end.

Definition os_get_terminal_size : M terminal_size :=
  fun st =>
    match call GetTerminalSize st with
    | (Normal _, st') => (Normal (geometry (List.length (trace st))), st')
    | (Raised e, st') => (Raised e, st')
    | (Blocked, st') => (Blocked, st')
    end.

(** [print_lines(self._printable_options, self._searching_buffer)]. *)
Definition draw : M unit :=
  me <- get ;;
  printable <- lift (_printable_options ENDC me) ;;
  call (PrintLines printable (_searching_buffer me)).

(** [_terminal_resized] (lines 66-69); [or] probes the columns only
    when the lines agree. *)
Definition _terminal_resized : M bool :=
  size <- os_get_terminal_size ;;
  me <- get ;;
  if negb (lines size =? _terminal_last_line_size me) then ret true
  else
    size' <- os_get_terminal_size ;;
    ret (negb (columns size' =? _terminal_last_column_size me)).

(** Lines 95-100. *)
Definition refresh_on_resize : M unit :=
  resized <- _terminal_resized ;;
  if resized then
    size <- os_get_terminal_size ;;
    modify (set_terminal_last_line_size (lines size)) ;;
    size' <- os_get_terminal_size ;;
    modify (set_terminal_last_column_size (columns size')) ;;
    call ClearTerminal ;;
    draw
  else ret tt.

(** Lines 105-115: the branch of [SpecialKeys.INTRO]. *)
Definition confirm : M (option Z) :=
  me <- get ;;
  (if clear_on_exit me
   then call (DeleteAllLines (_searching_buffer me)
                             (_terminal_last_line_size me))
   else
     size <- os_get_terminal_size ;;
     call (DeleteLines (lines size - len (options me) - 1))) ;;
  call KsDeinit ;;
  printable <- lift (_printable_options ENDC me) ;;
  if negb (len printable =? 0)
  then ret (Some (_selected_option me))
  else ret None.

Definition TAB : ascii := Re.ch 9.

(** Lines 117-130: the other branches of the [if]/[elif] chain. *)
Definition dispatch (key : Key) : M unit :=
  me <- get ;;
  if is_key ARROW_UP key then
    modify (set_selected_option (_selected_option me - 1))
  else if is_key ARROW_DOWN key then
    modify (set_selected_option (_selected_option me + 1))
  else if is_key SLASH key && negb (_searching me) then
    modify (set_searching_buffer "/")
  else if _searching me then
    if is_key BACKSPACE key then
      match last_char (_searching_buffer me) with
      | None => raise IndexError
      | Some char_to_remove =>
          modify (set_searching_buffer (drop_last (_searching_buffer me))) ;;
          if Ascii.eqb char_to_remove TAB
          then call (CursorBackwards (Some 7))
          else call (CursorBackwards None)
      end
    else
      match key with
      | Str s =>
          modify (set_searching_buffer (_searching_buffer me ++ s)%string)
      | Special _ => ret tt
      end
  else ret tt.

(** Lines 132-135. *)
Definition reclamp_and_redraw : M unit :=
  me <- get ;;
  printable <- lift (_printable_options ENDC me) ;;
  modify (set_selected_option
            (clamp (_selected_option me) 0 (len printable - 1))) ;;
  me' <- get ;;
  call (DeleteAllLines (_searching_buffer me')
                       (_terminal_last_line_size me')) ;;
  draw.

(** One pass through the body of [while True] (lines 95-135).  [input]
    is what the blocking [readch] delivers, [None] when nothing ever
    arrives.  The pass yields [Some v] when it executes [return v] and
    [None] when it falls through to the next pass. *)
Definition iteration (input : option Key) : M (option (option Z)) :=
  refresh_on_resize ;;
  call KsReadch ;;
  match input with
  | None => block
  | Some key =>
      if is_key INTRO key then
        v <- confirm ;; ret (Some v)
      else
        dispatch key ;;
        reclamp_and_redraw ;;
        ret None
  end.

(** The [while True] loop, on the keys the user will press. *)
Fixpoint loop (keys : list Key) : M (option Z) :=
  match keys with
  | [] => iteration None ;; block
  | key :: keys' =>
      r <- iteration (Some key) ;;
      match r with
      | Some v => ret v
      | None => loop keys'
      end
  end.

(** The [try]/[finally] statement of [show] (lines 93-137). *)
Definition guarded_loop (keys : list Key) : M (option Z) :=
  try_finally (loop keys) (call KsDeinit).

(** [show] (lines 76-137).  Creating the handler object (line 88) makes
    no call to the terminal and is not recorded. *)
Definition show (keys : list Key) : M (option Z) :=
  call KsInit ;;
  draw ;;
  guarded_loop keys.

End Session.

(* ================================================================== *)
(** * Construction *)
(* ================================================================== *)

Section ClassBody.

(** [MultiPyColors.NONE] and [MultiPyStyles.UNDERLINE]. *)
Variable NONE : MultiPyColors.
Variable UNDERLINE : MultiPyStyles.

(** What [os.get_terminal_size()] answers while the class body runs
    (lines 34 and 37), once, when the module is imported. *)
Variable import_lines import_columns : Z.

(** The class body binds these names in order.  Line 30 reads the name
    [default_option] that line 24 has just bound, so it binds
    [_selected_option] to that value; [@dataclass] then takes every one
    of them as the default of the matching [__init__] parameter. *)
Definition class_default_option : Z := 0.
Definition class_prechar : string := "> ".
Definition class_clear_on_exit : bool := true.
Definition class_selected_color : MultiPyColors := NONE.
Definition class_selected_style : MultiPyStyles := UNDERLINE.
Definition class__selected_option : Z := class_default_option.
Definition class__searching_buffer : string := "".
Definition class__terminal_last_line_size : Z := import_lines.
Definition class__terminal_last_column_size : Z := import_columns.

Definition or_default {A} (given : option A) (default : A) : A :=
  match given with
  | Some a => a
  | None => default
  end.

(** The [__init__] that [@dataclass] generates: one parameter per field,
    in the order of the fields; [None] stands for an argument the caller
    leaves out.  There is no [__post_init__]. *)
Definition __init__
    (options : list string) (default_option : option Z)
    (prechar : option string) (clear_on_exit : option bool)
    (selected_color : option MultiPyColors)
    (selected_style : option MultiPyStyles)
    (_selected_option : option Z) (_searching_buffer : option string)
    (_terminal_last_line_size _terminal_last_column_size : option Z)
  : MultiPySimpleMenu :=
  Menu options
       (or_default default_option class_default_option)
       (or_default prechar class_prechar)
       (or_default clear_on_exit class_clear_on_exit)
       (or_default selected_color class_selected_color)
       (or_default selected_style class_selected_style)
       (or_default _selected_option class__selected_option)
       (or_default _searching_buffer class__searching_buffer)
       (or_default _terminal_last_line_size class__terminal_last_line_size)
       (or_default _terminal_last_column_size
                   class__terminal_last_column_size).

(** A menu built from the documented arguments alone. *)
Definition configured (options : list string) (default_option : Z)
  : MultiPySimpleMenu :=
  __init__ options (Some default_option) None None None None
           None None None None.

End ClassBody.

(* ================================================================== *)
(** * The lists as objects *)
(* ================================================================== *)

(** A Python list is an object: two names can denote one list, and an
    [append] through either changes it for both.  Everywhere else in this
    file a list is a value; this module runs [_printable_options] on a
    store of list objects instead, [self.options] being a reference into
    it, to see which objects the property writes to. *)
Module Objects.

(** A reference to a list object, and the list objects that exist. *)
Definition ref : Type := nat.
Definition store : Type := list (list string).

Definition read (h : store) (r : ref) : list string := nth r h [].

Fixpoint write (h : store) (r : ref) (v : list string) : store :=
  match h, r with
  | [], _ => []
  | _ :: h', O => v :: h'
  | x :: h', S r' => x :: write h' r' v
  end.

(** [[]], or a slice: a new object. *)
Definition alloc (h : store) (v : list string) : ref * store :=
  (List.length h, h ++ [v]).

(** [r.append(x)]. *)
Definition append (h : store) (r : ref) (x : string) : store :=
  write h r (read h r ++ [x]).

(** [for x in src: body]: the iterator keeps a position and looks the
    list object up again at every step, so a list that grows while it is
    walked keeps the loop going. *)
Fixpoint for_each (fuel : nat) (src : ref) (i : nat)
         (body : nat -> string -> store -> result store) (h : store)
  : result store :=
  match fuel with
  | O => Blocked
  | S fuel' =>
      match nth_error (read h src) i with
      | None => Normal h
      | Some x =>
          match body i x h with
          | Normal h' => for_each fuel' src (S i) body h'
          | other => other
          end
      end
  end.

Section OnTheStore.

Variable ENDC : string.

(** [self] with its [options] field holding the reference [options_ref]
    (the field of the record is not read here). *)
Variable self : MultiPySimpleMenu.
Variable options_ref : ref.

Definition keep_if_matching (available_options : ref)
           (_ : nat) (option : string) (h : store) : result store :=
  match Re.match_ (Re.escape (drop_first (_searching_buffer self))) option with
  | None => Raised ReError
  | Some hit => Normal (if hit then append h available_options option else h)
  end.

Definition add_styled (temp_printable_options : ref)
           (index : nat) (option : string) (h : store) : result store :=
  Normal (append h temp_printable_options
                 (style_option ENDC self (Z.of_nat index) option)).

(** [_printable_options] with the lists as objects (lines 40-64). *)
Definition printable_options (fuel : nat) (h : store)
  : result (ref * store) :=
  let (temp_printable_options, h1) := alloc h [] in
  let (available_options, h2) := alloc h1 [] in
  let filtered :=
    if _searching self then
      match for_each fuel options_ref 0%nat
                     (keep_if_matching available_options) h2 with
      | Normal h3 => Normal (available_options, h3)
      | Raised e => Raised e
      | Blocked => Blocked
      end
    else Normal (alloc h2 (read h2 options_ref)) in
  match filtered with
  | Normal (available_options', h3) =>
      match for_each fuel available_options' 0%nat
                     (add_styled temp_printable_options) h3 with
      | Normal h4 => Normal (temp_printable_options, h4)
      | Raised e => Raised e
      | Blocked => Blocked
      end
  | Raised e => Raised e
  | Blocked => Blocked
  end.

End OnTheStore.

(** What a walk appends: the images of the elements, position by
    position. *)
Fixpoint collect (f : nat -> string -> option string) (i : nat)
         (l : list string) : list string :=
  match l with
  | [] => []
  | x :: l' =>
      match f i x with
      | Some y => y :: collect f (S i) l'
      | None => collect f (S i) l'
      end
  end.

End Objects.

(* ================================================================== *)
(** * Vocabulary of the statements *)
(* ================================================================== *)

(** [starts_with p o]: the text [o] begins with the text [p]. *)
Definition starts_with (p o : string) : Prop :=
  exists rest, o = (p ++ rest)%string.

(** The options on display, as a plain filter. *)
Definition visible (self : MultiPySimpleMenu) : list string :=
  filter (String.prefix (drop_first (_searching_buffer self))) (options self).

(** [keeps proj c]: the computation [c] leaves [proj self] as it found
    it, however it ends. *)
Definition keeps {B A} (proj : MultiPySimpleMenu -> B) (c : M A) : Prop :=
  forall st, proj (self (snd (c st))) = proj (self st).

(** [emits P c]: [c] only adds calls to the trace, and each of them
    satisfies [P]. *)
Definition emits {A} (P : Event -> Prop) (c : M A) : Prop :=
  forall st, exists tr,
    trace (snd (c st)) = trace st ++ tr /\ Forall P tr.

(** What the visible list depends on: the configuration, the selection
    and the search buffer, not the geometry snapshot. *)
Definition session_view (m : MultiPySimpleMenu) :=
  (config m, _selected_option m, _searching_buffer m).

Definition not_deinit (e : Event) : Prop := e <> KsDeinit.

(** The net effect of lines 117-130 on the menu object. *)
Definition press (key : Key) (m : MultiPySimpleMenu) : MultiPySimpleMenu :=
  if is_key ARROW_UP key then
    set_selected_option (_selected_option m - 1) m
  else if is_key ARROW_DOWN key then
    set_selected_option (_selected_option m + 1) m
  else if is_key SLASH key && negb (_searching m) then
    set_searching_buffer "/" m
  else if _searching m then
    if is_key BACKSPACE key then
      set_searching_buffer (drop_last (_searching_buffer m)) m
    else
      match key with
      | Str s => set_searching_buffer (_searching_buffer m ++ s)%string m
      | Special _ => m
      end
  else m.

(** The net effect of line 132. *)
Definition reclamp (m : MultiPySimpleMenu) : MultiPySimpleMenu :=
  set_selected_option
    (clamp (_selected_option m) 0 (len (visible m) - 1)) m.

(** One pass of the loop on a key other than INTRO, as a function on the
    menu object. *)
Definition advance (m : MultiPySimpleMenu) (key : Key) : MultiPySimpleMenu :=
  reclamp (press key m).

Definition is_cursor_move (e : Event) : Prop :=
  exists times, e = CursorBackwards times.

(** The calls [confirm] makes before it returns. *)
Definition confirm_calls (geometry : nat -> terminal_size) (st : State)
  : list Event :=
  (if clear_on_exit (self st)
   then [DeleteAllLines (_searching_buffer (self st))
                        (_terminal_last_line_size (self st))]
   else [GetTerminalSize;
         DeleteLines (lines (geometry (List.length (trace st)))
                      - len (options (self st)) - 1)])
  ++ [KsDeinit].

(** An erase call, and what it means for one to count lines with the
    geometry [g]: [delete_all_lines] is handed [g]'s height,
    [delete_lines] the height minus the option count minus one. *)
Definition is_erase (e : Event) : Prop :=
  match e with
  | DeleteAllLines _ _ | DeleteLines _ => True
  | _ => False
  end.

Definition erase_uses (g : terminal_size) (option_count : Z) (e : Event)
  : Prop :=
  match e with
  | DeleteAllLines _ terminal_lines => terminal_lines = lines g
  | DeleteLines count => count = lines g - option_count - 1
  | _ => True
  end.

(** The menu object once lines 97-98 have stored the geometry [g]. *)
Definition resnapped (g : terminal_size) (m : MultiPySimpleMenu)
  : MultiPySimpleMenu :=
  set_terminal_last_column_size (columns g)
    (set_terminal_last_line_size (lines g) m).


(** ** Vocabulary of the further properties *)

(** What lines 113-115 return when the menu object is [m]. *)
Definition outcome (m : MultiPySimpleMenu) : option Z :=
  if len (visible m) =? 0 then None else Some (_selected_option m).

Definition not_intro (key : Key) : Prop := is_key INTRO key = false.

(** The calls of [readch] among the calls [tr]. *)
Definition is_readch (e : Event) : bool :=
  match e with
  | KsReadch => true
  | _ => false
  end.

Definition reads (tr : list Event) : nat :=
  List.length (filter is_readch tr).

Definition is_clear (e : Event) : bool :=
  match e with
  | ClearTerminal => true
  | _ => false
  end.

(** The calls of [clear_terminal] among the calls [tr]. *)
Definition clears (tr : list Event) : nat :=
  List.length (filter is_clear tr).

(** A visible line without highlight. *)
Definition plain_line (ENDC : string) (m : MultiPySimpleMenu)
           (option : string) : string :=
  (prechar m ++ option ++ ENDC)%string.

Definition is_cursor_call (e : Event) : bool :=
  match e with
  | CursorBackwards _ => true
  | _ => false
  end.

(** The calls of [cursor_backwards] a pass on [key] makes when the menu
    object is [m]: none, except one for BACKSPACE during a search, with
    [times=7] when the last character of the buffer is a tab. *)
Definition cursor_calls (key : Key) (m : MultiPySimpleMenu) : list Event :=
  if is_key INTRO key || is_key ARROW_UP key || is_key ARROW_DOWN key
  then []
  else if _searching m && is_key BACKSPACE key then
    match last_char (_searching_buffer m) with
    | Some c => [CursorBackwards (if Ascii.eqb c (Re.ch 9) then Some 7
                                  else None)]
    | None => []
    end
  else [].

(** [m] with another [default_option], and a state with such a menu. *)
Definition with_default_option (d : Z) (m : MultiPySimpleMenu)
  : MultiPySimpleMenu :=
  Menu (options m) d (prechar m) (clear_on_exit m)
       (selected_color m) (selected_style m)
       (_selected_option m) (_searching_buffer m)
       (_terminal_last_line_size m) (_terminal_last_column_size m).

Definition with_default (d : Z) (st : State) : State :=
  St (with_default_option d (self st)) (trace st).

(** [blind c]: [c] makes the same calls and ends the same way whatever
    [default_option] holds, and leaves it alone. *)
Definition blind {A} (c : M A) : Prop :=
  forall d st,
    c (with_default d st) = (fst (c st), with_default d (snd (c st))).

(** [k] uses the menu object it is handed without reading
    [default_option]. *)
Definition blind_reader {A} (k : MultiPySimpleMenu -> M A) : Prop :=
  forall d m st,
    k (with_default_option d m) (with_default d st)
    = (fst (k m st), with_default d (snd (k m st))).

(** ** Concrete inputs *)

(** The menu of the specification's scenarios, built by [__init__] from
    the option list and a default option, on a terminal of 24 lines and 80
    columns; an environment in which nothing raises, one in which the call
    made at a given time raises, and a terminal that keeps its size. *)
Definition reset_marker : string := "[0m".
Definition no_color : MultiPyColors := Color "".
Definition underline : MultiPyStyles := Style "[4m".

Definition greek (default_option : Z) : MultiPySimpleMenu :=
  configured no_color underline 24 80 ["Alpha"; "Beta"; "Gamma"]
             default_option.

Definition never_raises : nat -> option exn := fun _ => None.

Definition raises_at (t0 : nat) : nat -> option exn :=
  fun t => if Nat.eqb t t0 then Some (EnvError t) else None.

Definition steady (g : terminal_size) : nat -> terminal_size := fun _ => g.

Definition fresh (m : MultiPySimpleMenu) : State := St m [].

(* ================================================================== *)
(** * Python's [re]: what the metacharacters do, escaped or not *)
(* ================================================================== *)

Example re_dot_is_a_wildcard : Re.match_ "a.c" "abc" = Some true.
Proof. reflexivity. Qed.

Example re_escaped_dot_is_literal : Re.match_ (Re.escape "a.c") "abc" = Some false.
Proof. reflexivity. Qed.

Example re_star : Re.match_ "ab*c" "abbbcd" = Some true.
Proof. reflexivity. Qed.

(* ================================================================== *)
(** * The escaped pattern is a literal prefix test *)
(* ================================================================== *)

Lemma prefix_starts_with (p o : string) :
  String.prefix p o = true <-> starts_with p o.
Proof.
  revert o; induction p as [|a p IH]; intros o.
  - split; [intros _; exists o; reflexivity | destruct o; reflexivity].
  - destruct o as [|b o]; simpl.
    + split; [discriminate | intros [rest H]; discriminate].
    + destruct (ascii_dec a b) as [Heq|Hne].
      * subst b. rewrite IH. split; intros [rest H]; exists rest.
        -- simpl; now rewrite H.
        -- simpl in H; now injection H.
      * split; [discriminate | intros [rest H]].
        simpl in H. injection H as H1 H2. now elim Hne.
Qed.

Module ReFacts.
Import Re.

(** What [escape] does to one character is undone by [tokens]. *)
Lemma escape_one (c : ascii) :
  (is_special c = true /\ is_alnum c = false)
  \/ (is_special c = false /\ Ascii.eqb c "\" = false
      /\ classify c = Some (TAtom (Lit c))).
Proof.
  destruct c as [[] [] [] [] [] [] [] []]; vm_compute; auto.
Qed.

Lemma tokens_escape (p : string) :
  tokens (escape p)
  = Some (map (fun c => TAtom (Lit c)) (list_ascii_of_string p)).
Proof.
  induction p as [|c p IH]; [reflexivity|].
  simpl escape.
  destruct (escape_one c) as [[Hs Ha] | [Hs [Hb Hc]]]; rewrite Hs.
  - simpl tokens. rewrite Ha, IH. reflexivity.
  - simpl tokens. rewrite Hb, Hc, IH. reflexivity.
Qed.

Lemma items_literal (l : list ascii) :
  items (map (fun c => TAtom (Lit c)) l)
  = Some (map (fun c => (Lit c, Once)) l).
Proof.
  induction l as [|c l IH]; [reflexivity|].
  destruct l as [|d l]; [reflexivity|].
  change (items (map (fun c => TAtom (Lit c)) (c :: d :: l)))
    with (option_map (cons (Lit c, Once))
            (items (map (fun c => TAtom (Lit c)) (d :: l)))).
  rewrite IH. reflexivity.
Qed.

Lemma compile_escape (p : string) : compile (escape p) = Some (literal p).
Proof.
  unfold compile, literal. rewrite tokens_escape. apply items_literal.
Qed.

Lemma accepts_literal (p s : string) :
  accepts (literal p) s = String.prefix p s.
Proof.
  revert s; induction p as [|a p IH]; intros s;
    [destruct s; reflexivity|].
  destruct s as [|b s]; [reflexivity|].
  change (accepts (literal (String a p)) (String b s))
    with (Ascii.eqb a b && accepts (literal p) s).
  rewrite IH. simpl String.prefix.
  destruct (ascii_dec a b) as [->|Hne].
  - now rewrite Ascii.eqb_refl.
  - apply Ascii.eqb_neq in Hne. now rewrite Hne.
Qed.

(** [re.match(re.escape(p), s)] never fails to compile and holds exactly
    when [s] starts with [p]. *)
Lemma match_escape (p s : string) :
  match_ (escape p) s = Some (String.prefix p s).
Proof.
  unfold match_. rewrite compile_escape, accepts_literal. reflexivity.
Qed.

End ReFacts.

Lemma matching_options_filter (buffer : string) (opts : list string) :
  matching_options buffer opts
  = Normal (filter (String.prefix (drop_first buffer)) opts).
Proof.
  induction opts as [|o opts IH]; [reflexivity|].
  simpl. rewrite ReFacts.match_escape, IH. reflexivity.
Qed.

Lemma filter_all {A} (f : A -> bool) (l : list A) :
  (forall x, f x = true) -> filter f l = l.
Proof.
  intros H; induction l as [|x l IH]; simpl; [|rewrite H, IH]; reflexivity.
Qed.

Lemma available_options_visible (self : MultiPySimpleMenu) :
  available_options self = Normal (visible self).
Proof.
  unfold available_options, visible, _searching.
  destruct (_searching_buffer self) as [|c rest] eqn:E; simpl.
  - rewrite filter_all; [reflexivity | intros [|x o]; reflexivity].
  - apply matching_options_filter.
Qed.

Lemma printable_options_visible (ENDC : string) (self : MultiPySimpleMenu) :
  _printable_options ENDC self = Normal (styled ENDC self 0 (visible self)).
Proof.
  unfold _printable_options. now rewrite available_options_visible.
Qed.

Lemma styled_length (ENDC : string) (self : MultiPySimpleMenu)
      (index : Z) (l : list string) :
  List.length (styled ENDC self index l) = List.length l.
Proof.
  revert index; induction l as [|o l IH]; intros index; simpl;
    [|rewrite IH]; reflexivity.
Qed.

(** C3.  Whatever the search buffer holds, the filter stage keeps exactly
    the options that start with the pattern (the buffer without its first
    character) read as plain text, in the order of [self.options], and the
    visible list is that selection, styled: escaping leaves no
    metacharacter of the pattern with a special meaning, and the match is
    anchored at the first character of the option. *)
Theorem C3_filter_keeps_literal_prefixes
        (ENDC : string) (self : MultiPySimpleMenu) :
  let p := drop_first (_searching_buffer self) in
  available_options self = Normal (filter (String.prefix p) (options self))
  /\ _printable_options ENDC self
     = Normal (styled ENDC self 0 (filter (String.prefix p) (options self)))
  /\ (forall option, String.prefix p option = true <-> starts_with p option)
  /\ (forall option, Re.match_ (Re.escape p) option
                     = Some (String.prefix p option)).
Proof.
  intros p. split; [apply available_options_visible|].
  split; [apply printable_options_visible|].
  split; [intros o; apply prefix_starts_with|].
  intros o; apply ReFacts.match_escape.
Qed.

(* ================================================================== *)
(** * Reasoning about runs, whatever the environment does *)
(* ================================================================== *)

Lemma bind_normal {A B} (c : M A) (k : A -> M B) st a st' :
  c st = (Normal a, st') -> bind c k st = k a st'.
Proof. intros H; unfold bind; now rewrite H. Qed.

Section Frames.

Variable B : Type.
Variable proj : MultiPySimpleMenu -> B.
Variable P : Event -> Prop.
Variable fault : nat -> option exn.
Variable geometry : nat -> terminal_size.

Lemma keeps_ret {A} (a : A) : keeps proj (ret a).
Proof. intros st; reflexivity. Qed.

Lemma keeps_raise {A} e : keeps proj (@raise A e).
Proof. intros st; reflexivity. Qed.

Lemma keeps_block {A} : keeps proj (@block A).
Proof. intros st; reflexivity. Qed.

Lemma keeps_get : keeps proj get.
Proof. intros st; reflexivity. Qed.

Lemma keeps_lift {A} (r : result A) : keeps proj (lift r).
Proof. intros st; reflexivity. Qed.

Lemma keeps_modify f :
  (forall m, proj (f m) = proj m) -> keeps proj (modify f).
Proof. intros H st; simpl; apply H. Qed.

Lemma keeps_call e : keeps proj (call fault e).
Proof. intros st; unfold call; destruct (fault _); reflexivity. Qed.

Lemma keeps_size : keeps proj (os_get_terminal_size fault geometry).
Proof.
  intros st; unfold os_get_terminal_size, call.
  destruct (fault _); reflexivity.
Qed.

Lemma keeps_bind {A C} (c : M A) (k : A -> M C) :
  keeps proj c -> (forall a, keeps proj (k a)) -> keeps proj (bind c k).
Proof.
  intros Hc Hk st. unfold bind. specialize (Hc st).
  destruct (c st) as [[a|e|] st1]; simpl in *; try assumption.
  now rewrite Hk.
Qed.

Lemma keeps_try_finally {A} (body : M A) (cleanup : M unit) :
  keeps proj body -> keeps proj cleanup ->
  keeps proj (try_finally body cleanup).
Proof.
  intros Hb Hc st. unfold try_finally. specialize (Hb st).
  destruct (body st) as [[a|e|] st1]; simpl in *; try assumption;
    specialize (Hc st1);
    destruct (cleanup st1) as [[u|e'|] st2]; simpl in *; congruence.
Qed.

Lemma emits_ret {A} (a : A) : emits P (ret a).
Proof. intros st; exists []; simpl; now rewrite app_nil_r. Qed.

Lemma emits_raise {A} e : emits P (@raise A e).
Proof. intros st; exists []; simpl; now rewrite app_nil_r. Qed.

Lemma emits_block {A} : emits P (@block A).
Proof. intros st; exists []; simpl; now rewrite app_nil_r. Qed.

Lemma emits_get : emits P get.
Proof. intros st; exists []; simpl; now rewrite app_nil_r. Qed.

Lemma emits_lift {A} (r : result A) : emits P (lift r).
Proof. intros st; exists []; simpl; now rewrite app_nil_r. Qed.

Lemma emits_modify f : emits P (modify f).
Proof. intros st; exists []; simpl; now rewrite app_nil_r. Qed.

Lemma emits_call e : P e -> emits P (call fault e).
Proof.
  intros He st; exists [e]; unfold call.
  destruct (fault _); simpl; auto.
Qed.

Lemma emits_size :
  P GetTerminalSize -> emits P (os_get_terminal_size fault geometry).
Proof.
  intros He st; exists [GetTerminalSize].
  unfold os_get_terminal_size, call. destruct (fault _); simpl; auto.
Qed.

Lemma emits_bind {A C} (c : M A) (k : A -> M C) :
  emits P c -> (forall a, emits P (k a)) -> emits P (bind c k).
Proof.
  intros Hc Hk st. unfold bind. destruct (Hc st) as [tr [Ht HP]].
  destruct (c st) as [[a|e|] st1]; simpl in *; try (now exists tr).
  destruct (Hk a st1) as [tr' [Ht' HP']].
  exists (tr ++ tr'). rewrite Ht', Ht, app_assoc. split; [reflexivity|].
  apply Forall_app; now split.
Qed.

End Frames.

(** The walk through a computation's structure that settles [keeps] and
    [emits] goals. *)
Ltac walk :=
  repeat first
    [ apply keeps_bind; [|intros ?]
    | apply emits_bind; [|intros ?]
    | apply keeps_ret | apply keeps_raise | apply keeps_block
    | apply keeps_get | apply keeps_lift | apply keeps_call
    | apply keeps_size
    | apply keeps_modify; intros ?; reflexivity
    | apply emits_ret | apply emits_raise | apply emits_block
    | apply emits_get | apply emits_lift | apply emits_modify
    | apply emits_call; try discriminate; try exact I
    | apply emits_size; try discriminate; try exact I
    | match goal with
      | |- keeps _ (if ?b then _ else _) => destruct b
      | |- emits _ (if ?b then _ else _) => destruct b
      | |- keeps _ (match ?x with _ => _ end) => destruct x
      | |- emits _ (match ?x with _ => _ end) => destruct x
      end ].

Section Runs.

Variable ENDC : string.
Variable fault : nat -> option exn.
Variable geometry : nat -> terminal_size.

Lemma keeps_draw {B} (proj : MultiPySimpleMenu -> B) :
  keeps proj (draw ENDC fault).
Proof. unfold draw; walk. Qed.

Lemma keeps_refresh_view :
  keeps session_view (refresh_on_resize ENDC fault geometry).
Proof. unfold refresh_on_resize, _terminal_resized, draw; walk. Qed.

Lemma keeps_confirm {B} (proj : MultiPySimpleMenu -> B) :
  keeps proj (confirm ENDC fault geometry).
Proof. unfold confirm; walk. Qed.

Lemma keeps_dispatch_config key : keeps config (dispatch fault key).
Proof. unfold dispatch; walk. Qed.

Lemma keeps_reclamp_config :
  keeps config (reclamp_and_redraw ENDC fault).
Proof. unfold reclamp_and_redraw, draw; walk. Qed.

Lemma keeps_iteration_config input :
  keeps config (iteration ENDC fault geometry input).
Proof.
  unfold iteration. apply keeps_bind; [|intros _].
  { intros st. generalize (keeps_refresh_view st).
    unfold session_view. congruence. }
  apply keeps_bind; [apply keeps_call | intros _].
  destruct input as [key|]; [|apply keeps_block].
  destruct (is_key INTRO key).
  - apply keeps_bind; [apply keeps_confirm | intros v; apply keeps_ret].
  - apply keeps_bind; [apply keeps_dispatch_config | intros _].
    apply keeps_bind; [apply keeps_reclamp_config | intros _].
    apply keeps_ret.
Qed.

Lemma keeps_loop_config keys :
  keeps config (loop ENDC fault geometry keys).
Proof.
  induction keys as [|key keys IH]; simpl.
  - apply keeps_bind; [apply keeps_iteration_config|].
    intros _; apply keeps_block.
  - apply keeps_bind; [apply keeps_iteration_config|].
    intros [v|]; [apply keeps_ret | exact IH].
Qed.

Lemma keeps_show_config keys :
  keeps config (show ENDC fault geometry keys).
Proof.
  unfold show, guarded_loop.
  apply keeps_bind; [apply keeps_call | intros _].
  apply keeps_bind; [apply keeps_draw | intros _].
  apply keeps_try_finally; [apply keeps_loop_config | apply keeps_call].
Qed.

End Runs.

(* ================================================================== *)
(** * Where [deinit] is called *)
(* ================================================================== *)

Lemma bind_inv_normal {A B} (c : M A) (k : A -> M B) st v st' :
  bind c k st = (Normal v, st') ->
  exists a st1, c st = (Normal a, st1) /\ k a st1 = (Normal v, st').
Proof.
  unfold bind. destruct (c st) as [[a|e|] st1]; intros H;
    try discriminate. now exists a, st1.
Qed.

Lemma try_finally_inv_normal {A} (body : M A) (cleanup : M unit) st v st' :
  try_finally body cleanup st = (Normal v, st') ->
  exists st1, body st = (Normal v, st1) /\ cleanup st1 = (Normal tt, st').
Proof.
  unfold try_finally.
  destruct (body st) as [[a|e|] st1]; try discriminate;
    destruct (cleanup st1) as [[[]|e'|] st2] eqn:E; intros H;
    try discriminate.
  injection H as -> ->. now exists st1.
Qed.

Lemma emits_at {A} (P : Event -> Prop) (c : M A) st r st' :
  emits P c -> c st = (r, st') ->
  exists tr, trace st' = trace st ++ tr /\ Forall P tr.
Proof. intros H E. specialize (H st). now rewrite E in H. Qed.

Lemma silent_at {A} (c : M A) st r st' :
  emits (fun _ => False) c -> c st = (r, st') -> trace st' = trace st.
Proof.
  intros H E. destruct (emits_at _ H E) as [tr [Ht HF]].
  destruct tr as [|e tr]; [now rewrite app_nil_r in Ht|].
  inversion HF; contradiction.
Qed.

Section Release.

Variable ENDC : string.
Variable fault : nat -> option exn.
Variable geometry : nat -> terminal_size.

Lemma call_inv_normal e st u st' :
  call fault e st = (Normal u, st') -> trace st' = trace st ++ [e].
Proof.
  unfold call. destruct (fault _); intros H; [discriminate|].
  now injection H as _ <-.
Qed.

Lemma refresh_no_deinit :
  emits not_deinit (refresh_on_resize ENDC fault geometry).
Proof. unfold refresh_on_resize, _terminal_resized, draw; walk. Qed.

Lemma dispatch_no_deinit key : emits not_deinit (dispatch fault key).
Proof. unfold dispatch; walk. Qed.

Lemma reclamp_no_deinit :
  emits not_deinit (reclamp_and_redraw ENDC fault).
Proof. unfold reclamp_and_redraw, draw; walk. Qed.

Lemma draw_no_deinit : emits not_deinit (draw ENDC fault).
Proof. unfold draw; walk. Qed.

(** A [confirm] that returns has called [deinit] last, and once. *)
Lemma confirm_deinit st v st' :
  confirm ENDC fault geometry st = (Normal v, st') ->
  exists tr, trace st' = trace st ++ tr ++ [KsDeinit]
             /\ Forall not_deinit tr.
Proof.
  unfold confirm. intros H.
  apply bind_inv_normal in H as (me & st0 & Hget & H).
  injection Hget as <- <-.
  apply bind_inv_normal in H as (u & st1 & Herase & H).
  apply bind_inv_normal in H as (u' & st2 & Hdeinit & Htail).
  assert (He : exists tr, trace st1 = trace st ++ tr /\ Forall not_deinit tr).
  { eapply emits_at; [|exact Herase]. walk. }
  destruct He as [tr [Ht HP]].
  apply call_inv_normal in Hdeinit.
  assert (Hs : trace st' = trace st2).
  { eapply silent_at; [|exact Htail]. walk. }
  exists tr. rewrite Hs, Hdeinit, Ht, app_assoc. now split.
Qed.

(** One pass: if it executes [return], [deinit] was its last call and
    its only one; if it falls through, it made none. *)
Lemma iteration_deinit input st r st' :
  iteration ENDC fault geometry input st = (Normal r, st') ->
  exists tr, Forall not_deinit tr /\
    trace st' = trace st ++ tr
                ++ match r with Some _ => [KsDeinit] | None => [] end.
Proof.
  unfold iteration. intros H.
  apply bind_inv_normal in H as (u & st1 & Hrefresh & H).
  apply bind_inv_normal in H as (u' & st2 & Hread & H).
  destruct (emits_at _ refresh_no_deinit Hrefresh) as [tr1 [Ht1 HP1]].
  apply call_inv_normal in Hread.
  destruct input as [key|]; [|discriminate].
  destruct (is_key INTRO key).
  - apply bind_inv_normal in H as (v & st3 & Hconfirm & H).
    injection H as <- <-.
    apply confirm_deinit in Hconfirm as [tr3 [Ht3 HP3]].
    exists (tr1 ++ [KsReadch] ++ tr3). split.
    + repeat (apply Forall_app; split); auto.
      constructor; [discriminate | constructor].
    + rewrite Ht3, Hread, Ht1. now rewrite <- !app_assoc.
  - apply bind_inv_normal in H as (u3 & st3 & Hdispatch & H).
    apply bind_inv_normal in H as (u4 & st4 & Hredraw & H).
    injection H as <- <-.
    destruct (emits_at _ (dispatch_no_deinit key) Hdispatch)
      as [tr3 [Ht3 HP3]].
    destruct (emits_at _ reclamp_no_deinit Hredraw) as [tr4 [Ht4 HP4]].
    exists (tr1 ++ [KsReadch] ++ tr3 ++ tr4). split.
    + repeat (apply Forall_app; split); auto.
      constructor; [discriminate | constructor].
    + rewrite Ht4, Ht3, Hread, Ht1, app_nil_r.
      now rewrite <- !app_assoc.
Qed.

Lemma loop_deinit keys st v st' :
  loop ENDC fault geometry keys st = (Normal v, st') ->
  exists tr, Forall not_deinit tr /\
             trace st' = trace st ++ tr ++ [KsDeinit].
Proof.
  revert st; induction keys as [|key keys IH]; intros st H; simpl in H.
  - apply bind_inv_normal in H as (r & st1 & _ & H). discriminate.
  - apply bind_inv_normal in H as (r & st1 & Hit & H).
    apply iteration_deinit in Hit as [tr1 [HP1 Ht1]].
    destruct r as [w|].
    + injection H as <- <-. now exists tr1.
    + apply IH in H as [tr2 [HP2 Ht2]].
      exists (tr1 ++ tr2). split; [apply Forall_app; now split|].
      rewrite Ht2, Ht1, app_nil_r. now rewrite <- !app_assoc.
Qed.

(** The [try] statement, when it finishes at all, finishes on a call of
    [deinit]. *)
Lemma guarded_loop_releases keys st :
  fst (guarded_loop ENDC fault geometry keys st) <> Blocked ->
  exists tr,
    trace (snd (guarded_loop ENDC fault geometry keys st))
    = tr ++ [KsDeinit].
Proof.
  unfold guarded_loop, try_finally, call.
  destruct (loop ENDC fault geometry keys st) as [[v|e|] st1];
    simpl; [| |congruence];
    destruct (fault _); simpl; intros _; now exists (trace st1).
Qed.

End Release.

(** C10.  A run of [show] that returns a value (which only the branch of
    INTRO does) has called [deinit] exactly twice, as its last two calls:
    once on line 112, once more in the [finally] block. *)
Theorem C10_confirm_calls_deinit_twice
        (ENDC : string) (fault : nat -> option exn)
        (geometry : nat -> terminal_size)
        (keys : list Key) (st st' : State) (v : option Z) :
  show ENDC fault geometry keys st = (Normal v, st') ->
  exists before,
    trace st' = trace st ++ before ++ [KsDeinit; KsDeinit]
    /\ Forall (fun e => e <> KsDeinit) before.
Proof.
  unfold show, guarded_loop. intros H.
  apply bind_inv_normal in H as (u & st1 & Hinit & H).
  apply bind_inv_normal in H as (u' & st2 & Hdraw & H).
  apply try_finally_inv_normal in H as (st3 & Hloop & Hfin).
  apply call_inv_normal in Hinit. apply call_inv_normal in Hfin.
  destruct (emits_at _ (draw_no_deinit ENDC fault) Hdraw) as [tr2 [Ht2 HP2]].
  apply loop_deinit in Hloop as [tr3 [HP3 Ht3]].
  exists ([KsInit] ++ tr2 ++ tr3). split.
  - rewrite Hfin, Ht3, Ht2, Hinit. now rewrite <- !app_assoc.
  - repeat (apply Forall_app; split); auto.
    constructor; [discriminate | constructor].
Qed.

(* ================================================================== *)
(** * Runs in which no external call raises *)
(* ================================================================== *)

Lemma searching_last_char (m : MultiPySimpleMenu) :
  _searching m = true -> exists c, last_char (_searching_buffer m) = Some c.
Proof.
  unfold _searching. induction (_searching_buffer m) as [|a s IH]; simpl.
  - discriminate.
  - intros _. destruct s as [|b s]; [now exists a|].
    apply IH. reflexivity.
Qed.

Lemma visible_view m m' :
  session_view m = session_view m' -> visible m = visible m'.
Proof.
  unfold session_view, config, visible. intros H.
  injection H as Ho _ _ _ _ _ _ Hb. now rewrite Ho, Hb.
Qed.

Lemma styled_view ENDC m m' index l :
  session_view m = session_view m' ->
  styled ENDC m index l = styled ENDC m' index l.
Proof.
  unfold session_view, config. intros H.
  injection H as _ _ Hp _ Hc Hs Hsel _.
  revert index; induction l as [|o l IH]; intros index; simpl;
    [reflexivity|].
  unfold style_option. now rewrite IH, Hp, Hc, Hs, Hsel.
Qed.

Lemma press_view key m m' :
  session_view m = session_view m' ->
  session_view (press key m) = session_view (press key m').
Proof.
  destruct m, m'. unfold session_view, config; simpl. intros H.
  injection H as -> -> -> -> -> -> -> ->.
  unfold press, _searching; simpl.
  repeat match goal with
         | |- context [if ?b then _ else _] => destruct b
         end; try reflexivity.
  destruct key; reflexivity.
Qed.

Lemma reclamp_view m m' :
  session_view m = session_view m' ->
  session_view (reclamp m) = session_view (reclamp m').
Proof.
  intros H. unfold reclamp. rewrite (visible_view H).
  revert H. destruct m, m'. unfold session_view, config; simpl.
  intros H. injection H as -> -> -> -> -> -> -> ->. reflexivity.
Qed.

Lemma advance_view key m m' :
  session_view m = session_view m' ->
  session_view (advance m key) = session_view (advance m' key).
Proof. intros H. now apply reclamp_view, press_view. Qed.

Lemma fold_advance_view keys m m' :
  session_view m = session_view m' ->
  session_view (fold_left advance keys m)
  = session_view (fold_left advance keys m').
Proof.
  revert m m'; induction keys as [|k ks IH]; intros m m' V; simpl;
    [exact V|].
  apply IH. now apply advance_view.
Qed.

Section Calm.

Variable ENDC : string.
Variable fault : nat -> option exn.
Variable geometry : nat -> terminal_size.

Hypothesis calm : forall t, fault t = None.

Lemma call_calm e st :
  call fault e st = (Normal tt, St (self st) (trace st ++ [e])).
Proof. unfold call. now rewrite calm. Qed.

Lemma size_calm st :
  os_get_terminal_size fault geometry st
  = (Normal (geometry (List.length (trace st))),
     St (self st) (trace st ++ [GetTerminalSize])).
Proof. unfold os_get_terminal_size. now rewrite call_calm. Qed.

Lemma draw_calm st :
  draw ENDC fault st
  = (Normal tt,
     St (self st)
        (trace st ++ [PrintLines (styled ENDC (self st) 0 (visible (self st)))
                                 (_searching_buffer (self st))])).
Proof.
  unfold draw, bind, get, lift.
  now rewrite printable_options_visible, call_calm.
Qed.

Lemma refresh_calm st :
  exists st1,
    refresh_on_resize ENDC fault geometry st = (Normal tt, st1)
    /\ session_view (self st1) = session_view (self st).
Proof.
  pose proof (keeps_refresh_view ENDC fault geometry st) as Hview.
  assert (Hfst : fst (refresh_on_resize ENDC fault geometry st) = Normal tt).
  { unfold refresh_on_resize, _terminal_resized, bind.
    rewrite size_calm. unfold get at 1.
    destruct (negb (lines _ =? _)).
    - unfold ret at 1. rewrite size_calm. unfold modify at 1.
      rewrite size_calm. unfold modify at 1.
      rewrite call_calm, draw_calm. reflexivity.
    - rewrite size_calm. unfold ret at 1.
      destruct (negb (columns _ =? _)); [|reflexivity].
      rewrite size_calm. unfold modify at 1.
      rewrite size_calm. unfold modify at 1.
      rewrite call_calm, draw_calm. reflexivity. }
  destruct (refresh_on_resize ENDC fault geometry st) as [r st1].
  simpl in *. subst r. now exists st1.
Qed.

Lemma dispatch_calm key st :
  exists tr,
    dispatch fault key st
    = (Normal tt, St (press key (self st)) (trace st ++ tr))
    /\ Forall is_cursor_move tr.
Proof.
  assert (Hnil : forall m, (Normal tt, St m (trace st))
                           = (Normal tt, St m (trace st ++ [])))
    by (intros m; now rewrite app_nil_r).
  unfold dispatch, press, bind, get.
  destruct (is_key ARROW_UP key); [exists []; split; [apply Hnil|constructor]|].
  destruct (is_key ARROW_DOWN key);
    [exists []; split; [apply Hnil|constructor]|].
  destruct (is_key SLASH key && negb (_searching (self st)));
    [exists []; split; [apply Hnil|constructor]|].
  destruct (_searching (self st)) eqn:Es;
    [|exists []; split; [destruct st; apply Hnil|constructor]].
  destruct (is_key BACKSPACE key).
  - destruct (searching_last_char _ Es) as [c ->].
    unfold modify at 1.
    destruct (Ascii.eqb c TAB); rewrite call_calm;
      eexists; (split; [reflexivity|]);
      (constructor; [eexists; reflexivity | constructor]).
  - destruct key;
      (exists []; split; [try destruct st; apply Hnil|constructor]).
Qed.

Lemma reclamp_calm st :
  reclamp_and_redraw ENDC fault st
  = (Normal tt,
     St (reclamp (self st))
        (trace st
         ++ [DeleteAllLines (_searching_buffer (self st))
                            (_terminal_last_line_size (self st));
             PrintLines (styled ENDC (reclamp (self st)) 0
                                (visible (self st)))
                        (_searching_buffer (self st))])).
Proof.
  unfold reclamp_and_redraw, bind, get, lift.
  rewrite printable_options_visible. unfold modify at 1.
  rewrite call_calm, draw_calm. simpl self. simpl trace.
  unfold reclamp, len. rewrite styled_length, <- app_assoc.
  reflexivity.
Qed.

(** The value [confirm] returns, and that it leaves the object alone. *)
Lemma confirm_calm st :
  confirm ENDC fault geometry st
  = (Normal (if len (visible (self st)) =? 0 then None
             else Some (_selected_option (self st))),
     St (self st) (trace st ++ confirm_calls geometry st)).
Proof.
  unfold confirm, confirm_calls, bind, get, lift.
  assert (Hlen : len (styled ENDC (self st) 0 (visible (self st)))
                 = len (visible (self st)))
    by (unfold len; now rewrite styled_length).
  destruct (clear_on_exit (self st)).
  - rewrite call_calm, call_calm. simpl self. simpl trace.
    rewrite printable_options_visible, Hlen, <- app_assoc.
    destruct (len _ =? 0); reflexivity.
  - rewrite size_calm, call_calm, call_calm. simpl self. simpl trace.
    rewrite printable_options_visible, Hlen, <- !app_assoc.
    destruct (len _ =? 0); reflexivity.
Qed.

(** A pass on a key other than INTRO falls through and leaves the
    object as [advance] says. *)
Lemma iteration_calm key st :
  is_key INTRO key = false ->
  exists st',
    iteration ENDC fault geometry (Some key) st = (Normal None, st')
    /\ session_view (self st') = session_view (advance (self st) key).
Proof.
  intros Hk. unfold iteration.
  destruct (refresh_calm st) as [st1 [E1 V1]].
  rewrite (bind_normal _ _ _ E1), (bind_normal _ _ _ (call_calm KsReadch st1)).
  rewrite Hk.
  destruct (dispatch_calm key (St (self st1) (trace st1 ++ [KsReadch])))
    as [tr2 [E2 _]].
  rewrite (bind_normal _ _ _ E2).
  rewrite (bind_normal _ _ _ (reclamp_calm _)). simpl self.
  eexists; split; [reflexivity|]. simpl self.
  now apply advance_view.
Qed.

(** A pass on INTRO returns. *)
Lemma iteration_intro_calm st :
  exists st',
    iteration ENDC fault geometry (Some (Special INTRO)) st
    = (Normal (Some (if len (visible (self st)) =? 0 then None
                     else Some (_selected_option (self st)))), st')
    /\ session_view (self st') = session_view (self st).
Proof.
  unfold iteration.
  destruct (refresh_calm st) as [st1 [E1 V1]].
  rewrite (bind_normal _ _ _ E1), (bind_normal _ _ _ (call_calm KsReadch st1)).
  change (is_key INTRO (Special INTRO)) with true. cbv iota.
  rewrite (bind_normal _ _ _ (confirm_calm _)). simpl self.
  rewrite (visible_view V1).
  assert (Hsel : _selected_option (self st1) = _selected_option (self st))
    by (unfold session_view in V1; congruence).
  rewrite Hsel. eexists; split; [reflexivity | exact V1].
Qed.

(** With keys that never confirm, the loop ends up waiting for a key,
    the object being what [advance] makes of it key after key. *)
Lemma loop_calm keys st :
  Forall (fun key => is_key INTRO key = false) keys ->
  exists st',
    loop ENDC fault geometry keys st = (Blocked, st')
    /\ session_view (self st')
       = session_view (fold_left advance keys (self st)).
Proof.
  revert st; induction keys as [|key keys IH]; intros st Hk; cbn [loop].
  - destruct (refresh_calm st) as [st1 [E1 V1]].
    exists (St (self st1) (trace st1 ++ [KsReadch])).
    split; [|exact V1].
    unfold iteration, bind. now rewrite E1, call_calm.
  - inversion Hk as [|k ks Hkey Hrest]; subst.
    destruct (iteration_calm key st Hkey) as [st1 [E1 V1]].
    rewrite (bind_normal _ _ _ E1).
    destruct (IH st1 Hrest) as [st' [E' V']].
    exists st'. split; [exact E'|].
    rewrite V'. simpl. now apply fold_advance_view.
Qed.

End Calm.

(* ================================================================== *)
(** * Confirming, moving and searching *)
(* ================================================================== *)

Lemma len_printable ENDC m printable :
  _printable_options ENDC m = Normal printable ->
  len printable = len (visible m).
Proof.
  rewrite printable_options_visible. intros H. injection H as <-.
  unfold len. now rewrite styled_length.
Qed.

Lemma view_selected m m' :
  session_view m = session_view m' ->
  _selected_option m = _selected_option m'.
Proof. unfold session_view. congruence. Qed.

Lemma view_buffer m m' :
  session_view m = session_view m' ->
  _searching_buffer m = _searching_buffer m'.
Proof. unfold session_view. congruence. Qed.

Lemma view_options m m' :
  session_view m = session_view m' -> options m = options m'.
Proof. unfold session_view, config. congruence. Qed.

Lemma clamp_range (n largest : Z) :
  0 <= clamp n 0 largest < Z.max 1 (largest + 1).
Proof. unfold clamp. lia. Qed.

(** C2.  Whatever the state of the menu, when the key that arrives is
    INTRO (and no external call raises) the [try] statement of [show]
    finishes, with the current selection index if the visible list is not
    empty and with [None] if it is. *)
Theorem C2_confirm_returns_selection_or_none
        (ENDC : string) (fault : nat -> option exn)
        (geometry : nat -> terminal_size)
        (calm : forall t, fault t = None)
        (st : State) (rest : list Key) :
  exists printable,
    _printable_options ENDC (self st) = Normal printable
    /\ fst (guarded_loop ENDC fault geometry (Special INTRO :: rest) st)
       = Normal (if len printable =? 0 then None
                 else Some (_selected_option (self st))).
Proof.
  exists (styled ENDC (self st) 0 (visible (self st))).
  split; [apply printable_options_visible|].
  rewrite (len_printable ENDC (self st) (printable_options_visible _ _)).
  unfold guarded_loop, try_finally. cbn [loop].
  destruct (iteration_intro_calm ENDC fault geometry calm st) as [st1 [E1 _]].
  rewrite (bind_normal _ _ _ E1). unfold ret.
  now rewrite (call_calm fault calm).
Qed.

(** C4.  A pass of the loop on any key other than INTRO (no external call
    raising) falls through to the next pass and leaves a selection index
    [i] with [0 <= i < max(1, visibleCount)], [visibleCount] being the
    length of the list that is visible then; an empty list leaves 0. *)
Theorem C4_selection_in_range_after_every_pass
        (ENDC : string) (fault : nat -> option exn)
        (geometry : nat -> terminal_size)
        (calm : forall t, fault t = None)
        (st : State) (key : Key) :
  is_key INTRO key = false ->
  exists st' printable,
    iteration ENDC fault geometry (Some key) st = (Normal None, st')
    /\ _printable_options ENDC (self st') = Normal printable
    /\ 0 <= _selected_option (self st') < Z.max 1 (len printable)
    /\ (printable = [] -> _selected_option (self st') = 0).
Proof.
  intros Hk.
  destruct (iteration_calm ENDC fault geometry calm key st Hk) as [st' [E V]].
  exists st', (styled ENDC (self st') 0 (visible (self st'))).
  split; [exact E|]. split; [apply printable_options_visible|].
  assert (Hlen : len (styled ENDC (self st') 0 (visible (self st')))
                 = len (visible (press key (self st)))).
  { unfold len. rewrite styled_length. now rewrite (visible_view V). }
  assert (Hsel : _selected_option (self st')
                 = clamp (_selected_option (press key (self st))) 0
                         (len (visible (press key (self st))) - 1))
    by (rewrite (view_selected V); reflexivity).
  rewrite Hlen, Hsel. split.
  - pose proof (clamp_range (_selected_option (press key (self st)))
                            (len (visible (press key (self st))) - 1)) as H.
    replace (len (visible (press key (self st))) - 1 + 1)
      with (len (visible (press key (self st)))) in H by lia.
    exact H.
  - intros Hnil. apply (f_equal (@List.length string)) in Hnil.
    rewrite styled_length in Hnil. rewrite (visible_view V) in Hnil.
    change (visible (advance (self st) key))
      with (visible (press key (self st))) in Hnil.
    unfold len. rewrite Hnil. unfold clamp. simpl. lia.
Qed.

(** C6.  From a valid index [i] of a visible list of [n] entries (no
    external call raising): arrow-down leaves [min(i+1, n-1)], arrow-up
    leaves [max(i-1, 0)], so the index saturates at both ends and never
    wraps; arrow-down followed by arrow-up gives [i] back whenever [i] is
    not the last index, and at the last index it leaves [max(n-2, 0)]. *)
Theorem C6_arrow_down_then_up
        (ENDC : string) (fault : nat -> option exn)
        (geometry : nat -> terminal_size)
        (calm : forall t, fault t = None)
        (st : State) (printable : list string) :
  _printable_options ENDC (self st) = Normal printable ->
  0 <= _selected_option (self st) < len printable ->
  let i := _selected_option (self st) in
  let n := len printable in
  let after keys :=
    _selected_option (self (snd (loop ENDC fault geometry keys st))) in
  after [Special ARROW_DOWN] = Z.min (i + 1) (n - 1)
  /\ after [Special ARROW_UP] = Z.max (i - 1) 0
  /\ (i < n - 1 -> after [Special ARROW_DOWN; Special ARROW_UP] = i)
  /\ (i = n - 1 ->
      after [Special ARROW_DOWN; Special ARROW_UP] = Z.max (n - 2) 0).
Proof.
  intros Hp Hi i n after.
  assert (Hafter : forall keys,
             Forall (fun key => is_key INTRO key = false) keys ->
             after keys
             = _selected_option (fold_left advance keys (self st))).
  { intros keys Hk. unfold after.
    destruct (loop_calm ENDC fault geometry calm st Hk) as [st' [E V]].
    rewrite E. simpl. now apply view_selected. }
  assert (Hn : len (visible (self st)) = n)
    by (symmetry; now apply len_printable with ENDC).
  rewrite !Hafter by (repeat constructor).
  simpl fold_left. unfold advance at 1 2 3 5.
  change (_selected_option (reclamp (press (Special ARROW_DOWN) (self st))))
    with (clamp (i + 1) 0 (len (visible (self st)) - 1)).
  change (_selected_option (reclamp (press (Special ARROW_UP) (self st))))
    with (clamp (i - 1) 0 (len (visible (self st)) - 1)).
  change (_selected_option
            (reclamp (press (Special ARROW_UP)
                            (advance (self st) (Special ARROW_DOWN)))))
    with (clamp (clamp (i + 1) 0 (len (visible (self st)) - 1) - 1) 0
                (len (visible (self st)) - 1)).
  rewrite Hn. unfold clamp. fold i n in Hi. lia.
Qed.

Lemma not_searching_empty (m : MultiPySimpleMenu) :
  _searching m = false -> _searching_buffer m = "".
Proof.
  unfold _searching. destruct (_searching_buffer m); [reflexivity|].
  discriminate.
Qed.

Lemma visible_not_searching (m : MultiPySimpleMenu) :
  _searching_buffer m = "" -> visible m = options m.
Proof.
  unfold visible. intros ->. apply filter_all. intros [|c o]; reflexivity.
Qed.

Lemma filter_prefix_empty (l : list string) :
  filter (String.prefix "") l = l.
Proof. apply filter_all. intros [|c o]; reflexivity. Qed.

(** SLASH outside a search, then BACKSPACE on the marker, as [advance]
    computes them. *)
Lemma advance_slash (m : MultiPySimpleMenu) :
  _searching_buffer m = "" ->
  advance m (Special SLASH)
  = set_searching_buffer "/"
      (set_selected_option
         (clamp (_selected_option m) 0 (len (options m) - 1)) m).
Proof.
  destruct m as [o d p c sc ss sel buf ll lc]. simpl. intros ->.
  unfold advance, press, reclamp, visible, _searching. simpl.
  now rewrite filter_prefix_empty.
Qed.

Lemma advance_backspace_marker (m : MultiPySimpleMenu) :
  _searching_buffer m = "/" ->
  advance m (Special BACKSPACE)
  = set_selected_option
      (clamp (_selected_option m) 0 (len (options m) - 1))
      (set_searching_buffer "" m).
Proof.
  destruct m as [o d p c sc ss sel buf ll lc]. simpl. intros ->.
  unfold advance, press, reclamp, visible, _searching. simpl.
  now rewrite filter_prefix_empty.
Qed.

(** C7.  From a state in which no search is active (no external call
    raising): after SLASH the buffer is the marker alone; after SLASH and
    then BACKSPACE the buffer is empty again, no search is active, the
    filter stage yields the whole of [self.options] and the visible list
    is that list, styled; a selection index that was valid is unchanged,
    so the visible list is the one shown before the search. *)
Theorem C7_slash_then_backspace_leaves_search
        (ENDC : string) (fault : nat -> option exn)
        (geometry : nat -> terminal_size)
        (calm : forall t, fault t = None)
        (st : State) :
  _searching (self st) = false ->
  let entered := self (snd (loop ENDC fault geometry [Special SLASH] st)) in
  let left :=
    self (snd (loop ENDC fault geometry
                    [Special SLASH; Special BACKSPACE] st)) in
  _searching_buffer entered = "/"
  /\ _searching_buffer left = ""
  /\ _searching left = false
  /\ options left = options (self st)
  /\ available_options left = Normal (options (self st))
  /\ _printable_options ENDC left
     = Normal (styled ENDC left 0 (options (self st)))
  /\ (0 <= _selected_option (self st) < len (options (self st)) ->
      _printable_options ENDC left = _printable_options ENDC (self st)).
Proof.
  intros Hs entered left.
  pose proof (not_searching_empty _ Hs) as Hbuf.
  assert (Hrun : forall keys,
             Forall (fun key => is_key INTRO key = false) keys ->
             session_view (self (snd (loop ENDC fault geometry keys st)))
             = session_view (fold_left advance keys (self st))).
  { intros keys Hk.
    destruct (loop_calm ENDC fault geometry calm st Hk) as [st' [E V]].
    now rewrite E. }
  assert (V1 : session_view entered
               = session_view (advance (self st) (Special SLASH)))
    by (apply Hrun; repeat constructor).
  assert (V2 : session_view left
               = session_view
                   (advance (advance (self st) (Special SLASH))
                            (Special BACKSPACE)))
    by (apply Hrun; repeat constructor).
  clearbody entered left.
  rewrite (advance_slash _ Hbuf) in V1.
  rewrite (advance_slash _ Hbuf), advance_backspace_marker in V2
    by reflexivity.
  revert V1 V2 Hbuf Hs. destruct (self st) as [o d p c sc ss sel buf ll lc].
  simpl. intros V1 V2 -> _.
  pose proof (view_buffer V1) as B1. pose proof (view_buffer V2) as B2.
  pose proof (view_options V2) as O2. simpl in B1, B2, O2.
  assert (Sleft : _searching left = false)
    by (unfold _searching; now rewrite B2).
  assert (Vis : visible left = o)
    by (rewrite (visible_not_searching _ B2); exact O2).
  split; [exact B1|]. split; [exact B2|]. split; [exact Sleft|].
  split; [exact O2|].
  split; [unfold available_options; now rewrite Sleft, O2|].
  split; [now rewrite printable_options_visible, Vis|].
  intros Hsel. rewrite !printable_options_visible, Vis.
  rewrite visible_not_searching by reflexivity. simpl options. f_equal.
  apply styled_view. rewrite V2. unfold set_selected_option. simpl.
  replace (clamp (clamp sel 0 (len o - 1)) 0 (len o - 1)) with sel
    by (unfold clamp; lia).
  reflexivity.
Qed.

(* ================================================================== *)
(** * Resizing *)
(* ================================================================== *)

Lemma press_keeps_snapshot key m :
  _terminal_last_line_size (press key m) = _terminal_last_line_size m
  /\ _terminal_last_column_size (press key m) = _terminal_last_column_size m
  /\ options (press key m) = options m.
Proof.
  unfold press.
  repeat match goal with
         | |- context [if ?b then _ else _] => destruct b
         end; try (split; [|split]; reflexivity).
  destruct key; split; try split; reflexivity.
Qed.

Section Resize.

Variable ENDC : string.
Variable fault : nat -> option exn.
Variable geometry : nat -> terminal_size.
Variable st : State.
Variable g : terminal_size.

Hypothesis calm : forall t, fault t = None.

(** From now on the terminal measures [g], and [g] is not the
    snapshot. *)
Hypothesis stable :
  forall t, (List.length (trace st) <= t)%nat -> geometry t = g.
Hypothesis differs :
  lines g <> _terminal_last_line_size (self st)
  \/ columns g <> _terminal_last_column_size (self st).

Lemma refresh_resized :
  exists probes,
    Forall (eq GetTerminalSize) probes
    /\ refresh_on_resize ENDC fault geometry st
       = (Normal tt,
          St (resnapped g (self st))
             (trace st ++ probes
              ++ [ClearTerminal;
                  PrintLines (styled ENDC (resnapped g (self st)) 0 (visible (self st)))
                             (_searching_buffer (self st))])).
Proof.
  assert (G : forall extra,
             geometry (List.length (trace st ++ extra)) = g)
    by (intros extra; apply stable; rewrite length_app; lia).
  assert (G0 : geometry (List.length (trace st)) = g)
    by (apply stable; lia).
  unfold refresh_on_resize, _terminal_resized, bind.
  rewrite (size_calm fault geometry calm), G0. unfold get at 1.
  cbn [self trace].
  destruct (lines g =? _terminal_last_line_size (self st)) eqn:El;
    cbn [negb]; cbv beta iota.
  - rewrite (size_calm fault geometry calm). cbn [self trace].
    rewrite G. unfold ret at 1. cbv beta iota. cbn [self trace].
    assert (Ec : (columns g =? _terminal_last_column_size (self st)) = false).
    { apply Z.eqb_neq. apply Z.eqb_eq in El. tauto. }
    rewrite Ec. cbn [negb]. cbv beta iota.
    rewrite (size_calm fault geometry calm). cbn [self trace].
    rewrite <- app_assoc, G. unfold modify at 1. cbv beta iota. cbn [self trace].
    rewrite (size_calm fault geometry calm). cbn [self trace].
    rewrite <- app_assoc, G. unfold modify at 1. cbv beta iota. cbn [self trace].
    rewrite (call_calm fault calm), (draw_calm ENDC fault calm).
    cbn [self trace].
    exists [GetTerminalSize; GetTerminalSize; GetTerminalSize;
            GetTerminalSize].
    split; [repeat constructor|]. rewrite <- !app_assoc. reflexivity.
  - unfold ret at 1. cbv beta iota.
    rewrite (size_calm fault geometry calm). cbn [self trace].
    rewrite G. unfold modify at 1. cbv beta iota. cbn [self trace].
    rewrite (size_calm fault geometry calm). cbn [self trace].
    rewrite <- app_assoc, G. unfold modify at 1. cbv beta iota. cbn [self trace].
    rewrite (call_calm fault calm), (draw_calm ENDC fault calm).
    cbn [self trace].
    exists [GetTerminalSize; GetTerminalSize; GetTerminalSize].
    split; [repeat constructor|]. rewrite <- !app_assoc. reflexivity.
Qed.

(** C8.  If, at the top of a pass, the terminal measures a geometry [g]
    that differs from the snapshot (and keeps measuring [g] during the
    pass, no external call raising), then the pass probes the geometry,
    clears the screen and prints the full visible list before it reads
    the key; the snapshot it leaves is [g]; and every erase call it
    makes after reading the key (there is one) counts lines with
    [g]. *)
Theorem C8_resize_redraws_before_reading_the_key (key : Key) :
  exists probes printable later r st',
    iteration ENDC fault geometry (Some key) st = (Normal r, st')
    /\ _printable_options ENDC (self st) = Normal printable
    /\ trace st'
       = trace st ++ probes
         ++ [ClearTerminal;
             PrintLines printable (_searching_buffer (self st));
             KsReadch]
         ++ later
    /\ Forall (eq GetTerminalSize) probes
    /\ _terminal_last_line_size (self st') = lines g
    /\ _terminal_last_column_size (self st') = columns g
    /\ Forall (erase_uses g (len (options (self st)))) later
    /\ Exists is_erase later.
Proof.
  destruct refresh_resized as [probes [Hprobes Erefresh]].
  assert (Hprint : styled ENDC (resnapped g (self st)) 0 (visible (self st))
                   = styled ENDC (self st) 0 (visible (self st)))
    by (apply styled_view; reflexivity).
  rewrite Hprint in Erefresh.
  exists probes, (styled ENDC (self st) 0 (visible (self st))).
  set (tr1 := trace st ++ probes
              ++ [ClearTerminal;
                  PrintLines (styled ENDC (self st) 0 (visible (self st)))
                             (_searching_buffer (self st))]) in *.
  assert (Htr : forall later,
             (tr1 ++ [KsReadch]) ++ later
             = trace st ++ probes
               ++ [ClearTerminal;
                   PrintLines (styled ENDC (self st) 0 (visible (self st)))
                              (_searching_buffer (self st));
                   KsReadch] ++ later).
  { intros later. unfold tr1. rewrite <- !app_assoc. reflexivity. }
  unfold iteration.
  rewrite (bind_normal _ _ _ Erefresh).
  rewrite (bind_normal _ _ _ (call_calm fault calm KsReadch _)).
  cbn [self trace].
  destruct (is_key INTRO key).
  - rewrite (bind_normal _ _ _ (confirm_calm ENDC fault geometry calm _)).
    unfold ret. cbn [self trace].
    eexists _, _, _. split; [reflexivity|].
    split; [apply printable_options_visible|].
    split; [apply Htr|]. split; [exact Hprobes|].
    split; [reflexivity|]. split; [reflexivity|].
    unfold confirm_calls. cbn [self trace].
    change (clear_on_exit (resnapped g (self st))) with (clear_on_exit (self st)).
    destruct (clear_on_exit (self st)).
    + split; [repeat constructor | left; exact I].
    + split; [|right; left; exact I].
      constructor; [exact I|]. constructor; [|repeat constructor].
      simpl. rewrite stable; [reflexivity|].
      unfold tr1. rewrite !length_app. lia.
  - destruct (dispatch_calm fault calm key
                (St (resnapped g (self st)) (tr1 ++ [KsReadch]))) as [tr2 [E2 Hcur]].
    rewrite (bind_normal _ _ _ E2).
    rewrite (bind_normal _ _ _ (reclamp_calm ENDC fault calm _)).
    unfold ret. cbn [self trace].
    destruct (press_keeps_snapshot key (resnapped g (self st))) as [Hl [Hc Ho]].
    eexists _, _, _. split; [reflexivity|].
    split; [apply printable_options_visible|].
    split; [rewrite <- app_assoc; apply Htr|]. split; [exact Hprobes|].
    split; [exact Hl|]. split; [exact Hc|]. split.
    + apply Forall_app. split.
      * eapply Forall_impl; [|exact Hcur].
        intros e [times ->]. exact I.
      * constructor; [exact Hl | repeat constructor].
    + apply Exists_app. right. left. exact I.
Qed.

End Resize.

(* ================================================================== *)
(** * What [show] writes to *)
(* ================================================================== *)

Module ObjectsFacts.
Import Objects.

Lemma length_write h r v : List.length (write h r v) = List.length h.
Proof.
  revert r; induction h as [|x h IH]; intros r; [reflexivity|].
  destruct r; simpl; [|rewrite IH]; reflexivity.
Qed.

Lemma read_write_same h r v :
  (r < List.length h)%nat -> read (write h r v) r = v.
Proof.
  unfold read. revert r; induction h as [|x h IH]; intros r Hr; simpl in Hr;
    [lia|].
  destruct r; simpl; [reflexivity|]. apply IH. lia.
Qed.

Lemma read_write_other h r r' v :
  r <> r' -> read (write h r v) r' = read h r'.
Proof.
  unfold read. revert r r'; induction h as [|x h IH]; intros r r' Hne;
    [reflexivity|].
  destruct r, r'; simpl; try reflexivity; try congruence.
  apply IH. congruence.
Qed.

Lemma read_alloc_old h v r :
  (r < List.length h)%nat -> read (h ++ [v]) r = read h r.
Proof. intros Hr. unfold read. now rewrite app_nth1. Qed.

Lemma read_alloc_new h v : read (h ++ [v]) (List.length h) = v.
Proof. unfold read. now rewrite nth_middle. Qed.

(** Walking [src] from position [i] while appending to another object
    [dst]: the walk ends, [dst] gains the images of the elements from [i]
    on, and no other object changes. *)
Lemma for_each_appending
      (f : nat -> string -> option string) (src dst : ref) :
  src <> dst ->
  forall fuel i h,
    (dst < List.length h)%nat ->
    (i <= List.length (read h src) < fuel + i)%nat ->
    exists h',
      for_each fuel src i
        (fun index x h =>
           Normal (match f index x with
                   | Some y => append h dst y
                   | None => h
                   end)) h
      = Normal h'
      /\ List.length h' = List.length h
      /\ (forall r, r <> dst -> read h' r = read h r)
      /\ read h' dst
         = read h dst ++ collect f i (skipn i (read h src)).
Proof.
  intros Hne. induction fuel as [|fuel IH]; intros i h Hdst Hfuel.
  - exfalso. lia.
  - cbn [for_each].
    destruct (nth_error (read h src) i) as [x|] eqn:Ex.
    + set (h1 := match f i x with Some y => append h dst y | None => h end).
      assert (Hlen1 : List.length h1 = List.length h)
        by (unfold h1, append; destruct (f i x); [apply length_write|reflexivity]).
      assert (Hsrc1 : read h1 src = read h src)
        by (unfold h1, append; destruct (f i x);
            [apply read_write_other; congruence|reflexivity]).
      assert (Hother1 : forall r, r <> dst -> read h1 r = read h r)
        by (intros r Hr; unfold h1, append; destruct (f i x);
            [apply read_write_other; congruence|reflexivity]).
      destruct (IH (S i) h1) as [h' [E [Hlen [Hother Hdst']]]].
      { now rewrite Hlen1. }
      { rewrite Hsrc1.
        assert (i < List.length (read h src))%nat
          by (apply nth_error_Some; congruence).
        lia. }
      exists h'. split; [exact E|]. split; [congruence|].
      split; [intros r Hr; rewrite Hother, Hother1; auto|].
      rewrite Hdst', Hsrc1.
      pose proof (nth_error_split _ _ Ex) as [l1 [l2 [Hl Hi]]].
      assert (Hs : skipn i (read h src) = x :: l2).
      { rewrite Hl, <- Hi. rewrite skipn_app, skipn_all, Nat.sub_diag.
        reflexivity. }
      assert (Hs' : skipn (S i) (read h src) = l2).
      { rewrite Hl, <- Hi.
        change (S (List.length l1)) with (1 + List.length l1)%nat.
        rewrite <- skipn_skipn. rewrite skipn_app, skipn_all, Nat.sub_diag.
        reflexivity. }
      rewrite Hs, Hs'. cbn [collect]. unfold h1, append.
      destruct (f i x) as [y|].
      * rewrite read_write_same by exact Hdst. now rewrite <- app_assoc.
      * reflexivity.
    + exists h. split; [reflexivity|]. split; [reflexivity|].
      split; [reflexivity|].
      apply nth_error_None in Ex. rewrite skipn_all2 by exact Ex.
      now rewrite app_nil_r.
Qed.

Lemma for_each_ext body body' :
  (forall i x h, body i x h = body' i x h) ->
  forall fuel src i h,
    for_each fuel src i body h = for_each fuel src i body' h.
Proof.
  intros Hb. induction fuel as [|fuel IH]; intros src i h; [reflexivity|].
  cbn [for_each]. destruct (nth_error (read h src) i) as [x|]; [|reflexivity].
  rewrite Hb. destruct (body' i x h); [apply IH | reflexivity | reflexivity].
Qed.

Lemma collect_filter (keep : string -> bool) i l :
  collect (fun _ x => if keep x then Some x else None) i l = filter keep l.
Proof.
  revert i; induction l as [|x l IH]; intros i; simpl; [reflexivity|].
  destruct (keep x); now rewrite IH.
Qed.

Lemma collect_styled ENDC self i l :
  collect (fun index x => Some (style_option ENDC self (Z.of_nat index) x)) i l
  = styled ENDC self (Z.of_nat i) l.
Proof.
  revert i; induction l as [|x l IH]; intros i; simpl; [reflexivity|].
  rewrite IH. now rewrite Nat2Z.inj_succ, Z.add_1_r.
Qed.

Lemma length_filter_le {A} (f : A -> bool) (l : list A) :
  (List.length (filter f l) <= List.length l)%nat.
Proof.
  induction l as [|x l IH]; simpl; [lia|]. destruct (f x); simpl; lia.
Qed.

(** The formatter on the store: with fuel for one walk of the options it
    returns a reference to a list object that did not exist before, it
    leaves every list object that existed (the one behind [self.options]
    among them) with the content it had, and the content of the new
    object is what [_printable_options] computes on values. *)
Lemma printable_options_on_store ENDC self o h fuel :
  (o < List.length h)%nat ->
  read h o = options self ->
  (List.length (options self) < fuel)%nat ->
  exists t h',
    printable_options ENDC self o fuel h = Normal (t, h')
    /\ (List.length h <= t)%nat
    /\ (forall r, (r < List.length h)%nat -> read h' r = read h r)
    /\ _printable_options ENDC self = Normal (read h' t).
Proof.
  intros Ho Hopts Hfuel.
  set (t := List.length h). set (h1 := h ++ [[]]).
  set (a := List.length h1). set (h2 := h1 ++ [[]]).
  assert (La : a = S t) by (unfold a, h1, t; rewrite length_app; simpl; lia).
  assert (L2 : List.length h2 = S (S t))
    by (unfold h2; rewrite length_app; fold a; simpl; lia).
  assert (R2 : forall r, (r < t)%nat -> read h2 r = read h r).
  { intros r Hr. unfold h2, h1.
    rewrite read_alloc_old by (rewrite length_app; simpl; fold t; lia).
    now apply read_alloc_old. }
  assert (R2t : read h2 t = []).
  { unfold h2. rewrite read_alloc_old by (fold a; lia).
    apply read_alloc_new. }
  assert (R2a : read h2 a = []) by apply read_alloc_new.
  rewrite printable_options_visible.
  unfold printable_options, alloc. fold t h1 a h2.
  destruct (_searching self) eqn:Es.
  - rewrite (for_each_ext
               (keep_if_matching self a)
               (fun _ x h =>
                  Normal (match (if String.prefix
                                      (drop_first (_searching_buffer self)) x
                                 then Some x else None) with
                          | Some y => append h a y
                          | None => h
                          end))).
    2:{ intros i x h0. unfold keep_if_matching.
        rewrite ReFacts.match_escape. now destruct (String.prefix _ x). }
    destruct (@for_each_appending
                (fun _ x => if String.prefix
                                 (drop_first (_searching_buffer self)) x
                            then Some x else None)
                o a ltac:(lia) fuel 0%nat h2)
      as [h3 [E3 [L3 [O3 D3]]]]; [lia | rewrite R2, Hopts by exact Ho; lia |].
    rewrite E3.
    rewrite R2a, R2, Hopts, collect_filter in D3 by exact Ho.
    simpl in D3. fold (visible self) in D3.
    destruct (@for_each_appending
                (fun index x =>
                   Some (style_option ENDC self (Z.of_nat index) x))
                a t ltac:(lia) fuel 0%nat h3)
      as [h4 [E4 [L4 [O4 D4]]]].
    { lia. }
    { rewrite D3. pose proof (length_filter_le
                  (String.prefix (drop_first (_searching_buffer self)))
                  (options self)). unfold visible. lia. }
    unfold add_styled. rewrite E4.
    exists t, h4. split; [reflexivity|]. split; [lia|]. split.
    + intros r Hr. rewrite O4, O3, R2 by lia. reflexivity.
    + rewrite D4, O3, R2t, D3, collect_styled by lia. reflexivity.
  - set (c := List.length h2). set (h3 := h2 ++ [read h2 o]).
    assert (R3c : read h3 c = options self).
    { unfold h3, c. rewrite read_alloc_new, R2 by exact Ho. exact Hopts. }
    assert (R3 : forall r, (r < c)%nat -> read h3 r = read h2 r)
      by (intros r Hr; now apply read_alloc_old).
    destruct (@for_each_appending
                (fun index x =>
                   Some (style_option ENDC self (Z.of_nat index) x))
                c t ltac:(unfold c; lia) fuel 0%nat h3)
      as [h4 [E4 [L4 [O4 D4]]]].
    { unfold h3. rewrite length_app. lia. }
    { rewrite R3c. lia. }
    unfold add_styled. rewrite E4.
    exists t, h4. split; [reflexivity|]. split; [lia|]. split.
    + intros r Hr. rewrite O4, R3, R2 by (unfold c; lia). reflexivity.
    + rewrite D4, R3, R2t, R3c, collect_styled by (unfold c; lia).
      simpl. rewrite visible_not_searching; [reflexivity|].
      now apply not_searching_empty.
Qed.

End ObjectsFacts.

(** C9.  Whatever the keys and whatever the environment does, a run of
    [show] ends (or blocks, or raises) with [options], [default_option],
    [prechar], [clear_on_exit], [selected_color] and [selected_style] as
    it found them: only the selection, the search buffer and the geometry
    snapshot are assigned to.  And on a store of list objects the
    formatter returns an object that did not exist before and leaves
    every object that did, [self.options] among them, unchanged: it works
    on lists of its own. *)
Theorem C9_show_leaves_the_configuration_alone :
  (forall ENDC fault geometry keys st,
      config (self (snd (show ENDC fault geometry keys st)))
      = config (self st))
  /\ (forall ENDC me options_ref h fuel,
         (options_ref < List.length h)%nat ->
         Objects.read h options_ref = options me ->
         (List.length (options me) < fuel)%nat ->
         exists printable h',
           Objects.printable_options ENDC me options_ref fuel h
           = Normal (printable, h')
           /\ (List.length h <= printable)%nat
           /\ (forall r, (r < List.length h)%nat ->
                         Objects.read h' r = Objects.read h r)
           /\ _printable_options ENDC me
              = Normal (Objects.read h' printable)).
Proof.
  split.
  - intros ENDC fault geometry keys st. apply keeps_show_config.
  - intros ENDC me options_ref h fuel.
    apply ObjectsFacts.printable_options_on_store.
Qed.

(* ================================================================== *)
(** * Construction, and a failure of the first rendering *)
(* ================================================================== *)

(** C1.  The generated [__init__] does not copy [default_option] into
    [_selected_option]: a menu built from an option list and a default
    option starts with the selection index 0, the value the class body
    bound.  With three options and [default_option = 2] the index is 0,
    where the configured default, clamped to the list, is 2. *)
Theorem C1_constructed_selection_is_zero :
  (forall NONE UNDERLINE import_lines import_columns options default_option,
      _selected_option
        (configured NONE UNDERLINE import_lines import_columns
                    options default_option) = 0)
  /\ default_option (greek 2) = 2
  /\ clamp (default_option (greek 2)) 0 (len (options (greek 2)) - 1) = 2
  /\ _selected_option (greek 2) = 0.
Proof. repeat split. Qed.

(** Whenever the first [print_lines] (line 91) raises, [show] passes the
    exception on having called [init] and never [deinit]. *)
Lemma first_render_is_unguarded ENDC fault geometry keys st e :
  fault (List.length (trace st)) = None ->
  fault (S (List.length (trace st))) = Some e ->
  exists printable,
    show ENDC fault geometry keys st
    = (Raised e,
       St (self st)
          (trace st
           ++ [KsInit; PrintLines printable (_searching_buffer (self st))])).
Proof.
  intros H0 H1. unfold show, bind, draw, bind, get, lift, call.
  rewrite H0. cbn [self trace].
  rewrite printable_options_visible.
  rewrite length_app, Nat.add_comm. cbn [List.length Nat.add].
  rewrite H1, <- app_assoc. eexists; reflexivity.
Qed.

(** C5.  The run of the menu of three options in which the first
    [print_lines] raises: [show] raises in turn, and the calls it has made
    are [init] and that [print_lines]; [deinit] is not among them.  (An
    exception raised inside the [try] statement is followed by [deinit]:
    [guarded_loop_releases].) *)
Theorem C5_failure_of_the_first_render_skips_deinit :
  let run :=
    show reset_marker (raises_at 1) (steady (TerminalSize 80 24))
         [Special INTRO] (fresh (greek 0)) in
  fst run = Raised (EnvError 1)
  /\ trace (snd run)
     = [KsInit;
        PrintLines ["> [4mAlpha[0m"; "> Beta[0m"; "> Gamma[0m"] ""]
  /\ ~ In KsDeinit (trace (snd run)).
Proof.
  vm_compute. split; [reflexivity|]. split; [reflexivity|].
  intros [H|[H|[]]]; discriminate.
Qed.

(* ================================================================== *)
(** * The scenarios of the specification *)
(* ================================================================== *)

Example scenario_down_down_confirm :
  fst (show reset_marker never_raises (steady (TerminalSize 80 24))
            [Special ARROW_DOWN; Special ARROW_DOWN; Special INTRO]
            (fresh (greek 0)))
  = Normal (Some 2).
Proof. vm_compute. reflexivity. Qed.

Example scenario_search_B :
  fst (show reset_marker never_raises (steady (TerminalSize 80 24))
            [Special SLASH; Str "B"; Special INTRO] (fresh (greek 0)))
  = Normal (Some 0).
Proof. vm_compute. reflexivity. Qed.

Example scenario_search_Z :
  fst (show reset_marker never_raises (steady (TerminalSize 80 24))
            [Special SLASH; Str "Z"; Special INTRO] (fresh (greek 0)))
  = Normal None.
Proof. vm_compute. reflexivity. Qed.

Example scenario_search_metacharacter :
  available_options
    (set_searching_buffer "/.l" (greek 0)) = Normal []
  /\ Re.match_ ".l" "Alpha" = Some true.
Proof. vm_compute. split; reflexivity. Qed.

(* ================================================================== *)
(** * The theorems at concrete inputs *)
(* ================================================================== *)

Lemma never_raises_calm : forall t, never_raises t = None.
Proof. intros t. reflexivity. Defined.

(** C2 on the menu of three options, INTRO being the first key. *)
Lemma C2_witness :
  (forall t, never_raises t = None)
  /\ exists printable,
      _printable_options reset_marker (self (fresh (greek 0)))
      = Normal printable
      /\ fst (guarded_loop reset_marker never_raises
                           (steady (TerminalSize 80 24))
                           (Special INTRO :: []) (fresh (greek 0)))
         = Normal (if len printable =? 0 then None
                   else Some (_selected_option (self (fresh (greek 0))))).
Proof.
  split; [exact never_raises_calm|].
  exact (C2_confirm_returns_selection_or_none
           reset_marker never_raises (steady (TerminalSize 80 24))
           never_raises_calm (fresh (greek 0)) []).
Defined.

(** C4 on a search that matches nothing: the letter Z typed into the
    search of the three options. *)
Lemma C4_witness :
  (forall t, never_raises t = None)
  /\ is_key INTRO (Str "Z") = false
  /\ exists st' printable,
      iteration reset_marker never_raises (steady (TerminalSize 80 24))
                (Some (Str "Z"))
                (fresh (set_searching_buffer "/" (greek 0)))
      = (Normal None, st')
      /\ _printable_options reset_marker (self st') = Normal printable
      /\ 0 <= _selected_option (self st') < Z.max 1 (len printable)
      /\ (printable = [] -> _selected_option (self st') = 0).
Proof.
  split; [exact never_raises_calm|]. split; [reflexivity|].
  exact (C4_selection_in_range_after_every_pass
           reset_marker never_raises (steady (TerminalSize 80 24))
           never_raises_calm (fresh (set_searching_buffer "/" (greek 0)))
           (Str "Z") eq_refl).
Defined.

(** C6 on the menu of three options, from its first entry. *)
Lemma C6_witness :
  let st := fresh (greek 0) in
  let printable := ["> [4mAlpha[0m"; "> Beta[0m"; "> Gamma[0m"] in
  let after keys :=
    _selected_option
      (self (snd (loop reset_marker never_raises
                       (steady (TerminalSize 80 24)) keys st))) in
  (forall t, never_raises t = None)
  /\ _printable_options reset_marker (self st) = Normal printable
  /\ 0 <= _selected_option (self st) < len printable
  /\ after [Special ARROW_DOWN] = Z.min (0 + 1) (3 - 1)
  /\ after [Special ARROW_UP] = Z.max (0 - 1) 0
  /\ (0 < 3 - 1 -> after [Special ARROW_DOWN; Special ARROW_UP] = 0)
  /\ (0 = 3 - 1 ->
      after [Special ARROW_DOWN; Special ARROW_UP] = Z.max (3 - 2) 0).
Proof.
  intros st printable after.
  split; [exact never_raises_calm|]. split; [reflexivity|].
  split; [split; [discriminate | reflexivity]|].
  exact (C6_arrow_down_then_up
           reset_marker never_raises (steady (TerminalSize 80 24))
           never_raises_calm st eq_refl
           ltac:(split; [discriminate | reflexivity])).
Defined.

(** C7 on the menu of three options. *)
Lemma C7_witness :
  let st := fresh (greek 0) in
  let entered :=
    self (snd (loop reset_marker never_raises (steady (TerminalSize 80 24))
                    [Special SLASH] st)) in
  let left :=
    self (snd (loop reset_marker never_raises (steady (TerminalSize 80 24))
                    [Special SLASH; Special BACKSPACE] st)) in
  (forall t, never_raises t = None)
  /\ _searching (self st) = false
  /\ _searching_buffer entered = "/"
  /\ _searching_buffer left = ""
  /\ _searching left = false
  /\ options left = options (self st)
  /\ available_options left = Normal (options (self st))
  /\ _printable_options reset_marker left
     = Normal (styled reset_marker left 0 (options (self st)))
  /\ (0 <= _selected_option (self st) < len (options (self st)) ->
      _printable_options reset_marker left
      = _printable_options reset_marker (self st)).
Proof.
  intros st entered left.
  split; [exact never_raises_calm|]. split; [reflexivity|].
  exact (C7_slash_then_backspace_leaves_search
           reset_marker never_raises (steady (TerminalSize 80 24))
           never_raises_calm st eq_refl).
Defined.

(** C8 on the menu of three options, built on a terminal of 24 lines and
    80 columns, when the terminal has grown to 30 lines and 100 columns by
    the time a pass begins. *)
Lemma C8_witness :
  let st := fresh (greek 0) in
  let g := TerminalSize 100 30 in
  (forall t, never_raises t = None)
  /\ (forall t, (List.length (trace st) <= t)%nat -> steady g t = g)
  /\ (lines g <> _terminal_last_line_size (self st)
      \/ columns g <> _terminal_last_column_size (self st))
  /\ exists probes printable later r st',
      iteration reset_marker never_raises (steady g)
                (Some (Special ARROW_DOWN)) st = (Normal r, st')
      /\ _printable_options reset_marker (self st) = Normal printable
      /\ trace st'
         = trace st ++ probes
           ++ [ClearTerminal;
               PrintLines printable (_searching_buffer (self st));
               KsReadch]
           ++ later
      /\ Forall (eq GetTerminalSize) probes
      /\ _terminal_last_line_size (self st') = lines g
      /\ _terminal_last_column_size (self st') = columns g
      /\ Forall (erase_uses g (len (options (self st)))) later
      /\ Exists is_erase later.
Proof.
  intros st g.
  assert (Hstable : forall t, (List.length (trace st) <= t)%nat ->
                              steady g t = g)
    by (intros t _; reflexivity).
  assert (Hdiffers : lines g <> _terminal_last_line_size (self st)
                     \/ columns g <> _terminal_last_column_size (self st))
    by (left; discriminate).
  split; [exact never_raises_calm|]. split; [exact Hstable|].
  split; [exact Hdiffers|].
  exact (@C8_resize_redraws_before_reading_the_key
           reset_marker never_raises (steady g) st g
           never_raises_calm Hstable Hdiffers (Special ARROW_DOWN)).
Defined.

(** C9 on a store that holds the three options as its only list. *)
Lemma C9_witness :
  let h := [["Alpha"; "Beta"; "Gamma"]] in
  (0 < List.length h)%nat
  /\ Objects.read h 0%nat = options (greek 0)
  /\ (List.length (options (greek 0)) < 4)%nat
  /\ exists printable h',
      Objects.printable_options reset_marker (greek 0) 0%nat 4%nat h
      = Normal (printable, h')
      /\ (List.length h <= printable)%nat
      /\ (forall r, (r < List.length h)%nat ->
                    Objects.read h' r = Objects.read h r)
      /\ _printable_options reset_marker (greek 0)
         = Normal (Objects.read h' printable).
Proof.
  intros h.
  assert (H0 : (0 < List.length h)%nat) by (simpl; lia).
  assert (H1 : Objects.read h 0%nat = options (greek 0)) by reflexivity.
  assert (H2 : (List.length (options (greek 0)) < 4)%nat) by (simpl; lia).
  split; [exact H0|]. split; [exact H1|]. split; [exact H2|].
  exact (proj2 C9_show_leaves_the_configuration_alone
               reset_marker (greek 0) 0%nat h 4%nat H0 H1 H2).
Defined.

(** C10 on the menu of three options, INTRO being the first key. *)
Lemma C10_witness :
  let st := fresh (greek 0) in
  let run :=
    show reset_marker never_raises (steady (TerminalSize 80 24))
         [Special INTRO] st in
  run = (Normal (Some 0), snd run)
  /\ exists before,
      trace (snd run) = trace st ++ before ++ [KsDeinit; KsDeinit]
      /\ Forall (fun e => e <> KsDeinit) before.
Proof.
  intros st run.
  assert (Hrun : run = (Normal (Some 0), snd run))
    by (vm_compute; reflexivity).
  split; [exact Hrun|].
  exact (C10_confirm_calls_deinit_twice
           reset_marker never_raises (steady (TerminalSize 80 24))
           [Special INTRO] st Hrun).
Defined.

(* ================================================================== *)
(** * Which keys a run reads *)
(* ================================================================== *)

Lemma reads_app tr tr' : reads (tr ++ tr') = (reads tr + reads tr')%nat.
Proof. unfold reads. now rewrite filter_app, length_app. Qed.

Lemma reads_none tr :
  Forall (fun e => is_readch e = false) tr -> reads tr = 0%nat.
Proof.
  unfold reads. induction 1 as [|e tr He _ IH]; simpl; [reflexivity|].
  now rewrite He.
Qed.

Lemma is_intro_key key : is_key INTRO key = true -> key = Special INTRO.
Proof. destruct key as [[]|s]; simpl; intros H; congruence. Qed.

Section Reading.

Variable ENDC : string.
Variable fault : nat -> option exn.
Variable geometry : nat -> terminal_size.

Lemma refresh_reads_nothing :
  emits (fun e => is_readch e = false) (refresh_on_resize ENDC fault geometry).
Proof. unfold refresh_on_resize, _terminal_resized, draw; walk; reflexivity. Qed.

Lemma dispatch_reads_nothing key : emits (fun e => is_readch e = false) (dispatch fault key).
Proof. unfold dispatch; walk; reflexivity. Qed.

Lemma reclamp_reads_nothing : emits (fun e => is_readch e = false) (reclamp_and_redraw ENDC fault).
Proof. unfold reclamp_and_redraw, draw; walk; reflexivity. Qed.

Lemma confirm_reads_nothing : emits (fun e => is_readch e = false) (confirm ENDC fault geometry).
Proof. unfold confirm; walk; reflexivity. Qed.

Lemma draw_reads_nothing : emits (fun e => is_readch e = false) (draw ENDC fault).
Proof. unfold draw; walk; reflexivity. Qed.

(** A pass that finishes has read one key; it returns exactly when the
    key is INTRO. *)
Lemma iteration_reads key st r st' :
  iteration ENDC fault geometry (Some key) st = (Normal r, st') ->
  (exists tr, trace st' = trace st ++ tr /\ reads tr = 1%nat)
  /\ (if is_key INTRO key then exists v, r = Some v else r = None).
Proof.
  unfold iteration. intros H.
  apply bind_inv_normal in H as (u & st1 & Hrefresh & H).
  apply bind_inv_normal in H as (u' & st2 & Hread & H).
  destruct (emits_at _ refresh_reads_nothing Hrefresh) as [tr1 [Ht1 HP1]].
  apply call_inv_normal in Hread.
  destruct (is_key INTRO key).
  - apply bind_inv_normal in H as (v & st3 & Hconfirm & H).
    injection H as <- <-.
    destruct (emits_at _ confirm_reads_nothing Hconfirm) as [tr3 [Ht3 HP3]].
    split; [|now exists v].
    exists (tr1 ++ [KsReadch] ++ tr3). split.
    + rewrite Ht3, Hread, Ht1. now rewrite <- !app_assoc.
    + rewrite !reads_app, (reads_none HP1), (reads_none HP3). reflexivity.
  - apply bind_inv_normal in H as (u3 & st3 & Hdispatch & H).
    apply bind_inv_normal in H as (u4 & st4 & Hredraw & H).
    injection H as <- <-.
    destruct (emits_at _ (dispatch_reads_nothing key) Hdispatch)
      as [tr3 [Ht3 HP3]].
    destruct (emits_at _ reclamp_reads_nothing Hredraw) as [tr4 [Ht4 HP4]].
    split; [|reflexivity].
    exists (tr1 ++ [KsReadch] ++ tr3 ++ tr4). split.
    + rewrite Ht4, Ht3, Hread, Ht1. now rewrite <- !app_assoc.
    + rewrite !reads_app, (reads_none HP1), (reads_none HP3),
        (reads_none HP4). reflexivity.
Qed.

Lemma loop_reads keys st v st' :
  loop ENDC fault geometry keys st = (Normal v, st') ->
  exists pre rest tr,
    keys = pre ++ Special INTRO :: rest
    /\ Forall not_intro pre
    /\ trace st' = trace st ++ tr
    /\ reads tr = S (List.length pre).
Proof.
  revert st; induction keys as [|key keys IH]; intros st H; cbn [loop] in H.
  - apply bind_inv_normal in H as (r & st1 & _ & H). discriminate.
  - apply bind_inv_normal in H as (r & st1 & Hit & H).
    apply iteration_reads in Hit as [[tr1 [Ht1 Hr1]] Hkey].
    destruct (is_key INTRO key) eqn:Ek.
    + destruct Hkey as [w ->]. injection H as <- <-.
      apply is_intro_key in Ek as ->.
      exists [], keys, tr1. repeat split; auto.
    + subst r. apply IH in H as (pre & rest & tr & -> & Hpre & Ht & Hr).
      exists (key :: pre), rest, (tr1 ++ tr). repeat split.
      * constructor; assumption.
      * rewrite Ht, Ht1. now rewrite app_assoc.
      * rewrite reads_app, Hr1, Hr. reflexivity.
Qed.

End Reading.

(** X1.  A run of [show] that returns a value, whatever the environment
    does, had INTRO among its keys and called [readch] once for each key
    up to and including the first INTRO: the keys behind it were never
    read. *)
Theorem X1_show_reads_up_to_the_first_intro
        (ENDC : string) (fault : nat -> option exn)
        (geometry : nat -> terminal_size)
        (keys : list Key) (st st' : State) (v : option Z) :
  show ENDC fault geometry keys st = (Normal v, st') ->
  exists pre rest tr,
    keys = pre ++ Special INTRO :: rest
    /\ Forall not_intro pre
    /\ trace st' = trace st ++ tr
    /\ reads tr = S (List.length pre).
Proof.
  unfold show, guarded_loop. intros H.
  apply bind_inv_normal in H as (u & st1 & Hinit & H).
  apply bind_inv_normal in H as (u' & st2 & Hdraw & H).
  apply try_finally_inv_normal in H as (st3 & Hloop & Hfin).
  apply call_inv_normal in Hinit. apply call_inv_normal in Hfin.
  destruct (emits_at _ (draw_reads_nothing ENDC fault) Hdraw)
    as [tr2 [Ht2 HP2]].
  apply loop_reads in Hloop as (pre & rest & tr & Hk & Hpre & Ht & Hr).
  exists pre, rest, ([KsInit] ++ tr2 ++ tr ++ [KsDeinit]).
  split; [exact Hk|]. split; [exact Hpre|]. split.
  - rewrite Hfin, Ht, Ht2, Hinit. now rewrite <- !app_assoc.
  - rewrite !reads_app, (reads_none HP2), Hr.
    change (reads [KsInit]) with 0%nat.
    change (reads [KsDeinit]) with 0%nat. lia.
Qed.

(* ================================================================== *)
(** * What [show] returns *)
(* ================================================================== *)

Lemma outcome_view m m' :
  session_view m = session_view m' -> outcome m = outcome m'.
Proof.
  intros V. unfold outcome.
  now rewrite (visible_view V), (view_selected V).
Qed.

Lemma advance_options m key : options (advance m key) = options m.
Proof.
  unfold advance, reclamp. cbn [options set_selected_option].
  apply press_keeps_snapshot.
Qed.

Lemma fold_advance_options keys m :
  options (fold_left advance keys m) = options m.
Proof.
  revert m; induction keys as [|k ks IH]; intros m; simpl; [reflexivity|].
  now rewrite IH, advance_options.
Qed.

Lemma visible_reclamp m : visible (reclamp m) = visible m.
Proof. reflexivity. Qed.

(** The selection index [advance] leaves is a valid index of the list
    that is visible then (0 when it is empty). *)
Lemma advance_in_range m key :
  0 <= _selected_option (advance m key)
  < Z.max 1 (len (visible (advance m key))).
Proof.
  unfold advance. rewrite visible_reclamp. unfold reclamp.
  cbn [_selected_option set_selected_option].
  pose proof (clamp_range (_selected_option (press key m))
                          (len (visible (press key m)) - 1)) as H.
  now replace (len (visible (press key m)) - 1 + 1)
    with (len (visible (press key m))) in H by lia.
Qed.

Lemma fold_advance_in_range keys m :
  keys <> [] \/ 0 <= _selected_option m < Z.max 1 (len (visible m)) ->
  0 <= _selected_option (fold_left advance keys m)
  < Z.max 1 (len (visible (fold_left advance keys m))).
Proof.
  revert m; induction keys as [|k ks IH]; intros m H; simpl.
  - destruct H as [H|H]; [congruence | exact H].
  - apply IH. right. apply advance_in_range.
Qed.

Section Returning.

Variable ENDC : string.
Variable fault : nat -> option exn.
Variable geometry : nat -> terminal_size.

Hypothesis calm : forall t, fault t = None.

Lemma loop_confirm_calm pre rest st :
  Forall not_intro pre ->
  exists st',
    loop ENDC fault geometry (pre ++ Special INTRO :: rest) st
    = (Normal (outcome (fold_left advance pre (self st))), st')
    /\ session_view (self st')
       = session_view (fold_left advance pre (self st)).
Proof.
  revert st; induction pre as [|key pre IH]; intros st Hpre;
    cbn [app loop fold_left].
  - destruct (iteration_intro_calm ENDC fault geometry calm st)
      as [st1 [E1 V1]].
    rewrite (bind_normal _ _ _ E1). unfold ret.
    exists st1. split; [reflexivity | exact V1].
  - inversion Hpre as [|k ks Hkey Hrest]; subst.
    destruct (iteration_calm ENDC fault geometry calm key st Hkey)
      as [st1 [E1 V1]].
    rewrite (bind_normal _ _ _ E1).
    destruct (IH st1 Hrest) as [st' [E' V']].
    exists st'. split.
    + rewrite E'. f_equal. f_equal. apply outcome_view.
      now apply fold_advance_view.
    + rewrite V'. now apply fold_advance_view.
Qed.

Lemma show_confirm_calm pre rest st :
  Forall not_intro pre ->
  exists st',
    show ENDC fault geometry (pre ++ Special INTRO :: rest) st
    = (Normal (outcome (fold_left advance pre (self st))), st')
    /\ session_view (self st')
       = session_view (fold_left advance pre (self st)).
Proof.
  intros Hpre. unfold show, guarded_loop.
  rewrite (bind_normal _ _ _ (call_calm fault calm KsInit st)).
  rewrite (bind_normal _ _ _ (draw_calm ENDC fault calm _)).
  unfold try_finally.
  destruct (loop_confirm_calm rest
              (St (self st)
                  ((trace st ++ [KsInit])
                   ++ [PrintLines (styled ENDC (self st) 0 (visible (self st)))
                                  (_searching_buffer (self st))])) Hpre)
    as [st1 [E1 V1]].
  cbn [self trace] in *. rewrite E1, (call_calm fault calm).
  eexists. split; [reflexivity | exact V1].
Qed.

End Returning.

(** X2.  When no external call raises, [show] returns what the key-by-key
    transition function [advance] (lines 117-132) makes of the keys before
    the first INTRO: [None] if the list visible then is empty, the
    selection index otherwise.  The keys after that INTRO have no
    influence. *)
Theorem X2_show_returns_the_outcome_of_the_keys_before_intro
        (ENDC : string) (fault : nat -> option exn)
        (geometry : nat -> terminal_size)
        (calm : forall t, fault t = None)
        (pre rest : list Key) (st : State) :
  Forall not_intro pre ->
  let run := show ENDC fault geometry (pre ++ Special INTRO :: rest) st in
  fst run = Normal (outcome (fold_left advance pre (self st)))
  /\ session_view (self (snd run))
     = session_view (fold_left advance pre (self st)).
Proof.
  intros Hpre run.
  destruct (show_confirm_calm ENDC fault geometry calm rest st Hpre)
    as [st' [E V]].
  unfold run. rewrite E. split; [reflexivity | exact V].
Qed.

(** X3.  When no external call raises and the selection index starts as
    a valid index (or at least one key comes before INTRO), the value
    [show] returns is [Some i] with [i] a valid index of the filtered
    list as it stands at the return, or [None] with that list empty. *)
Theorem X3_show_returns_an_index_of_the_filtered_list
        (ENDC : string) (fault : nat -> option exn)
        (geometry : nat -> terminal_size)
        (calm : forall t, fault t = None)
        (pre rest : list Key) (st : State) :
  Forall not_intro pre ->
  pre <> []
  \/ 0 <= _selected_option (self st) < Z.max 1 (len (visible (self st))) ->
  let run := show ENDC fault geometry (pre ++ Special INTRO :: rest) st in
  exists v available,
    fst run = Normal v
    /\ available_options (self (snd run)) = Normal available
    /\ match v with
       | Some i => 0 <= i < len available
       | None => available = []
       end.
Proof.
  intros Hpre Hstart run.
  destruct (show_confirm_calm ENDC fault geometry calm rest st Hpre)
    as [st' [E V]].
  unfold run. rewrite E. cbn [fst snd].
  exists (outcome (fold_left advance pre (self st))), (visible (self st')).
  split; [reflexivity|]. split; [apply available_options_visible|].
  rewrite (visible_view V).
  pose proof (@fold_advance_in_range pre (self st) Hstart) as Hr.
  unfold outcome.
  destruct (len (visible (fold_left advance pre (self st))) =? 0) eqn:El.
  - apply Z.eqb_eq in El. unfold len in El.
    destruct (visible (fold_left advance pre (self st)));
      [reflexivity | discriminate].
  - apply Z.eqb_neq in El. unfold len in *. lia.
Qed.

(** X4.  On a menu without options, when no external call raises, [show]
    returns [None] whatever keys come before INTRO. *)
Theorem X4_show_on_no_options_returns_none
        (ENDC : string) (fault : nat -> option exn)
        (geometry : nat -> terminal_size)
        (calm : forall t, fault t = None)
        (pre rest : list Key) (st : State) :
  Forall not_intro pre ->
  options (self st) = [] ->
  fst (show ENDC fault geometry (pre ++ Special INTRO :: rest) st)
  = Normal None.
Proof.
  intros Hpre Hempty.
  destruct (show_confirm_calm ENDC fault geometry calm rest st Hpre)
    as [st' [E V]].
  rewrite E. cbn [fst]. unfold outcome, visible.
  now rewrite fold_advance_options, Hempty.
Qed.

(* ================================================================== *)
(** * Typing into the search *)
(* ================================================================== *)

Lemma string_app_assoc (a b c : string) :
  ((a ++ b) ++ c)%string = (a ++ (b ++ c))%string.
Proof. induction a as [|x a IH]; simpl; [|rewrite IH]; reflexivity. Qed.

Lemma prefix_shorter (p s o : string) :
  String.prefix (p ++ s)%string o = true -> String.prefix p o = true.
Proof.
  rewrite !prefix_starts_with. intros [rest ->].
  exists (s ++ rest)%string. apply string_app_assoc.
Qed.

Lemma filter_refines {A} (f g : A -> bool) (l : list A) :
  (forall x, f x = true -> g x = true) ->
  filter f (filter g l) = filter f l.
Proof.
  intros H. induction l as [|x l IH]; simpl; [reflexivity|].
  destruct (g x) eqn:Eg; simpl.
  - now rewrite IH.
  - destruct (f x) eqn:Ef; [|exact IH].
    apply H in Ef. congruence.
Qed.

Lemma drop_first_app (b s : string) :
  b <> ""%string ->
  drop_first (b ++ s)%string = (drop_first b ++ s)%string.
Proof. destruct b; [congruence | reflexivity]. Qed.

Lemma drop_last_app (b : string) (c : ascii) :
  drop_last (b ++ String c "")%string = b.
Proof.
  induction b as [|x b IH]; [reflexivity|].
  simpl. rewrite IH. destruct b; reflexivity.
Qed.

Lemma searching_nonempty m : _searching m = true -> _searching_buffer m <> "".
Proof.
  unfold _searching. destruct (_searching_buffer m); [discriminate|].
  intros _. discriminate.
Qed.

Lemma press_str_searching s m :
  _searching m = true ->
  press (Str s) m
  = set_searching_buffer (_searching_buffer m ++ s)%string m.
Proof. intros H. unfold press. cbn [is_key andb]. now rewrite H. Qed.

Lemma press_str_idle s m : _searching m = false -> press (Str s) m = m.
Proof. intros H. unfold press. cbn [is_key andb]. now rewrite H. Qed.

Lemma press_backspace_searching m :
  _searching m = true ->
  press (Special BACKSPACE) m
  = set_searching_buffer (drop_last (_searching_buffer m)) m.
Proof. intros H. unfold press. cbn [is_key andb]. now rewrite H. Qed.

Lemma press_backspace_idle m :
  _searching m = false -> press (Special BACKSPACE) m = m.
Proof. intros H. unfold press. cbn [is_key andb]. now rewrite H. Qed.

Lemma filter_length_le {A} (f : A -> bool) (l : list A) :
  len (filter f l) <= len l.
Proof.
  unfold len. induction l as [|x l IH]; simpl; [lia|].
  destruct (f x); simpl List.length; lia.
Qed.

(** X5.  During a search (no external call raising), a pass on a typed
    string [s] appends [s] to the search buffer, and the filter stage then
    yields the options of its previous result that start with the longer
    pattern, in the same order: typing can only narrow the list. *)
Theorem X5_typing_narrows_the_filtered_list
        (ENDC : string) (fault : nat -> option exn)
        (geometry : nat -> terminal_size)
        (calm : forall t, fault t = None)
        (st : State) (s : string) :
  _searching (self st) = true ->
  exists st' before after,
    iteration ENDC fault geometry (Some (Str s)) st = (Normal None, st')
    /\ _searching_buffer (self st')
       = (_searching_buffer (self st) ++ s)%string
    /\ available_options (self st) = Normal before
    /\ available_options (self st') = Normal after
    /\ after
       = filter (String.prefix (drop_first (_searching_buffer (self st'))))
                before
    /\ len after <= len before.
Proof.
  intros Hs.
  destruct (iteration_calm ENDC fault geometry calm (Str s) st eq_refl)
    as [st' [E V]].
  unfold advance in V. rewrite (press_str_searching s _ Hs) in V.
  pose proof (view_buffer V) as Hb. pose proof (view_options V) as Ho.
  cbn in Hb, Ho.
  exists st', (visible (self st)), (visible (self st')).
  split; [exact E|]. split; [exact Hb|].
  split; [apply available_options_visible|].
  split; [apply available_options_visible|].
  assert (Hvis : visible (self st')
                 = filter (String.prefix
                             (drop_first (_searching_buffer (self st'))))
                          (visible (self st))).
  { unfold visible. rewrite Ho. symmetry. apply filter_refines.
    intros o. rewrite Hb, drop_first_app by (now apply searching_nonempty).
    apply prefix_shorter. }
  split; [exact Hvis|]. rewrite Hvis. apply filter_length_le.
Qed.

(** X6.  Typing one character and deleting it again with BACKSPACE (no
    external call raising) gives back the search buffer and the result of
    the filter stage, in a search and outside one; the selection index is
    not restored but re-clamped on the way, so it ends at or below where
    it was. *)
Theorem X6_type_then_backspace
        (ENDC : string) (fault : nat -> option exn)
        (geometry : nat -> terminal_size)
        (calm : forall t, fault t = None)
        (st : State) (c : ascii) :
  let final :=
    self (snd (loop ENDC fault geometry
                    [Str (String c ""); Special BACKSPACE] st)) in
  _searching_buffer final = _searching_buffer (self st)
  /\ available_options final = available_options (self st)
  /\ (0 <= _selected_option (self st) ->
      0 <= _selected_option final <= _selected_option (self st)).
Proof.
  intros final.
  assert (V : session_view final
              = session_view
                  (advance (advance (self st) (Str (String c "")))
                           (Special BACKSPACE))).
  { unfold final.
    destruct (@loop_calm ENDC fault geometry calm
                         [Str (String c ""); Special BACKSPACE] st)
      as [st' [E V]]; [repeat constructor|].
    now rewrite E. }
  clearbody final.
  set (m := self st) in *.
  assert (Hfinal :
            _searching_buffer
              (advance (advance m (Str (String c ""))) (Special BACKSPACE))
            = _searching_buffer m
            /\ options
                 (advance (advance m (Str (String c ""))) (Special BACKSPACE))
               = options m
            /\ exists n1,
                _selected_option
                  (advance (advance m (Str (String c "")))
                           (Special BACKSPACE))
                = clamp (clamp (_selected_option m) 0 n1) 0
                        (len (visible m) - 1)).
  { destruct (_searching m) eqn:Es.
    - assert (Es1 : _searching (advance m (Str (String c ""))) = true).
      { unfold advance. rewrite (press_str_searching _ _ Es).
        unfold _searching. cbn. destruct (_searching_buffer m); reflexivity. }
      unfold advance at 1 3 5.
      fold (advance m (Str (String c ""))).
      rewrite (press_backspace_searching _ Es1).
      unfold advance. rewrite (press_str_searching _ _ Es).
      cbn [reclamp set_searching_buffer set_selected_option
           _searching_buffer options _selected_option].
      rewrite drop_last_app. split; [reflexivity|]. split; [reflexivity|].
      eexists. unfold visible at 1.
      cbn [_searching_buffer options]. reflexivity.
    - assert (Es1 : _searching (advance m (Str (String c ""))) = false).
      { unfold advance. now rewrite (press_str_idle _ _ Es). }
      unfold advance at 1 3 5.
      fold (advance m (Str (String c ""))).
      rewrite (press_backspace_idle _ Es1).
      unfold advance. rewrite (press_str_idle _ _ Es).
      cbn [reclamp set_searching_buffer set_selected_option
           _searching_buffer options _selected_option].
      split; [reflexivity|]. split; [reflexivity|].
      eexists. unfold visible at 1.
      cbn [_searching_buffer options]. reflexivity. }
  destruct Hfinal as [Hb [Ho [n1 Hsel]]].
  rewrite (view_buffer V), (view_selected V), Hb, Hsel.
  split; [reflexivity|]. split.
  - rewrite !available_options_visible. f_equal.
    unfold visible. now rewrite (view_buffer V), (view_options V), Hb, Ho.
  - intros H0. unfold clamp. lia.
Qed.

(* ================================================================== *)
(** * Moving the cursor back *)
(* ================================================================== *)

Lemma filter_none {A} (f : A -> bool) (l : list A) :
  Forall (fun x => f x = false) l -> filter f l = [].
Proof.
  induction 1 as [|x l Hx _ IH]; simpl; [reflexivity|]. now rewrite Hx.
Qed.

Lemma cursor_calls_view key m m' :
  session_view m = session_view m' ->
  cursor_calls key m = cursor_calls key m'.
Proof.
  intros V. unfold cursor_calls, _searching. now rewrite (view_buffer V).
Qed.

Lemma cursor_calls_are_cursor_calls key m :
  filter is_cursor_call (cursor_calls key m) = cursor_calls key m.
Proof.
  unfold cursor_calls.
  destruct (is_key INTRO key || is_key ARROW_UP key || is_key ARROW_DOWN key);
    [reflexivity|].
  destruct (_searching m && is_key BACKSPACE key); [|reflexivity].
  destruct (last_char (_searching_buffer m)); reflexivity.
Qed.

Section Cursor.

Variable ENDC : string.
Variable fault : nat -> option exn.
Variable geometry : nat -> terminal_size.

Lemma refresh_no_cursor :
  emits (fun e => is_cursor_call e = false)
        (refresh_on_resize ENDC fault geometry).
Proof. unfold refresh_on_resize, _terminal_resized, draw; walk; reflexivity. Qed.

Lemma reclamp_no_cursor :
  emits (fun e => is_cursor_call e = false) (reclamp_and_redraw ENDC fault).
Proof. unfold reclamp_and_redraw, draw; walk; reflexivity. Qed.

Lemma confirm_no_cursor :
  emits (fun e => is_cursor_call e = false) (confirm ENDC fault geometry).
Proof. unfold confirm; walk; reflexivity. Qed.

(** The calls lines 117-130 have made when they finish. *)
Lemma dispatch_cursor key st u st' :
  is_key INTRO key = false ->
  dispatch fault key st = (Normal u, st') ->
  trace st' = trace st ++ cursor_calls key (self st).
Proof.
  intros Hk. unfold dispatch, cursor_calls, bind, get. rewrite Hk.
  cbn [orb].
  destruct (is_key ARROW_UP key);
    [cbn; intros H; injection H as _ <-; cbn; now rewrite app_nil_r|].
  destruct (is_key ARROW_DOWN key);
    [cbn; intros H; injection H as _ <-; cbn; now rewrite app_nil_r|].
  cbn [orb].
  destruct (_searching (self st)) eqn:Es; cbn [andb negb].
  - rewrite andb_false_r.
    destruct (is_key BACKSPACE key).
    + destruct (last_char (_searching_buffer (self st))) as [c|];
        [|discriminate].
      unfold modify at 1. fold TAB.
      destruct (Ascii.eqb c TAB); intros H;
        apply call_inv_normal in H; exact H.
    + destruct key; cbn; intros H; injection H as _ <-; cbn;
        now rewrite app_nil_r.
  - destruct (is_key SLASH key); cbn; intros H; injection H as _ <-; cbn;
      now rewrite app_nil_r.
Qed.

End Cursor.

(** X7.  In a pass of the loop that finishes, whatever the environment
    does, [cursor_backwards] is called exactly when the key is BACKSPACE
    and a search is active, and then once: with [times=7] if the character
    that BACKSPACE removes is a tab, with the default otherwise.  No other
    key moves the cursor. *)
Theorem X7_cursor_moves_back_only_for_backspace_in_a_search
        (ENDC : string) (fault : nat -> option exn)
        (geometry : nat -> terminal_size)
        (key : Key) (st st' : State) (r : option (option Z)) :
  iteration ENDC fault geometry (Some key) st = (Normal r, st') ->
  exists tr,
    trace st' = trace st ++ tr
    /\ filter is_cursor_call tr = cursor_calls key (self st).
Proof.
  unfold iteration. intros H.
  apply bind_inv_normal in H as (u & st1 & Hrefresh & H).
  apply bind_inv_normal in H as (u' & st2 & Hread & H).
  destruct (emits_at _ (refresh_no_cursor ENDC fault geometry) Hrefresh)
    as [tr1 [Ht1 HP1]].
  pose proof (keeps_refresh_view ENDC fault geometry st) as V.
  rewrite Hrefresh in V. cbn [snd] in V.
  assert (Hself : self st2 = self st1).
  { unfold call in Hread. destruct (fault _); [discriminate|].
    injection Hread as _ <-. reflexivity. }
  apply call_inv_normal in Hread.
  destruct (is_key INTRO key) eqn:Ek.
  - apply bind_inv_normal in H as (v & st3 & Hconfirm & H).
    injection H as <- <-.
    destruct (emits_at _ (confirm_no_cursor ENDC fault geometry) Hconfirm)
      as [tr3 [Ht3 HP3]].
    exists (tr1 ++ [KsReadch] ++ tr3). split.
    + rewrite Ht3, Hread, Ht1. now rewrite <- !app_assoc.
    + rewrite !filter_app, (filter_none _ HP1), (filter_none _ HP3).
      unfold cursor_calls. now rewrite Ek.
  - apply bind_inv_normal in H as (u3 & st3 & Hdispatch & H).
    apply bind_inv_normal in H as (u4 & st4 & Hredraw & H).
    injection H as <- <-.
    apply (dispatch_cursor _ _ _ Ek) in Hdispatch.
    destruct (emits_at _ (reclamp_no_cursor ENDC fault) Hredraw)
      as [tr4 [Ht4 HP4]].
    exists (tr1 ++ [KsReadch] ++ cursor_calls key (self st2) ++ tr4). split.
    + rewrite Ht4, Hdispatch, Hread, Ht1. now rewrite <- !app_assoc.
    + rewrite !filter_app, (filter_none _ HP1), (filter_none _ HP4).
      rewrite Hself, (cursor_calls_view key V).
      change (filter is_cursor_call [KsReadch]) with (@nil Event).
      cbn [app]. rewrite app_nil_r. apply cursor_calls_are_cursor_calls.
Qed.

(* ================================================================== *)
(** * A pass on a terminal that has kept its size *)
(* ================================================================== *)

Section Unchanged.

Variable ENDC : string.
Variable fault : nat -> option exn.
Variable geometry : nat -> terminal_size.
Variable st : State.

Hypothesis calm : forall t, fault t = None.

(** The two probes of [_terminal_resized] find the snapshot's lines and
    columns. *)
Hypothesis same_lines :
  lines (geometry (List.length (trace st)))
  = _terminal_last_line_size (self st).
Hypothesis same_columns :
  columns (geometry (S (List.length (trace st))))
  = _terminal_last_column_size (self st).

Lemma refresh_unchanged :
  refresh_on_resize ENDC fault geometry st
  = (Normal tt,
     St (self st) (trace st ++ [GetTerminalSize; GetTerminalSize])).
Proof.
  unfold refresh_on_resize, _terminal_resized, bind.
  rewrite (size_calm fault geometry calm), same_lines. unfold get at 1.
  cbn [self trace]. rewrite Z.eqb_refl. cbn [negb]. cbv beta iota.
  rewrite (size_calm fault geometry calm). cbn [self trace].
  rewrite length_app, Nat.add_comm. cbn [List.length Nat.add].
  rewrite same_columns, Z.eqb_refl. unfold ret. cbn [negb].
  now rewrite <- app_assoc.
Qed.

(** X8.  When the two probes at the top of a pass find the terminal at the
    size of the snapshot (no external call raising), the pass reads the
    key right after them, never calls [clear_terminal], and leaves the
    snapshot as it was. *)
Theorem X8_no_resize_no_clear (key : Key) :
  exists later r st',
    iteration ENDC fault geometry (Some key) st = (Normal r, st')
    /\ trace st'
       = trace st ++ [GetTerminalSize; GetTerminalSize; KsReadch] ++ later
    /\ Forall (fun e => is_clear e = false) later
    /\ _terminal_last_line_size (self st')
       = _terminal_last_line_size (self st)
    /\ _terminal_last_column_size (self st')
       = _terminal_last_column_size (self st).
Proof.
  unfold iteration.
  rewrite (bind_normal _ _ _ refresh_unchanged).
  rewrite (bind_normal _ _ _ (call_calm fault calm KsReadch _)).
  cbn [self trace].
  assert (Htr : forall later,
             ((trace st ++ [GetTerminalSize; GetTerminalSize])
              ++ [KsReadch]) ++ later
             = trace st
               ++ [GetTerminalSize; GetTerminalSize; KsReadch] ++ later)
    by (intros later; now rewrite <- !app_assoc).
  destruct (is_key INTRO key).
  - rewrite (bind_normal _ _ _ (confirm_calm ENDC fault geometry calm _)).
    unfold ret. cbn [self trace].
    eexists _, _, _. split; [reflexivity|]. cbn [self trace].
    split; [apply Htr|].
    split; [|split; reflexivity].
    unfold confirm_calls. cbn [self trace].
    destruct (clear_on_exit (self st)); repeat constructor.
  - destruct (dispatch_calm fault calm key
                (St (self st)
                    ((trace st ++ [GetTerminalSize; GetTerminalSize])
                     ++ [KsReadch]))) as [tr2 [E2 Hcur]].
    rewrite (bind_normal _ _ _ E2).
    rewrite (bind_normal _ _ _ (reclamp_calm ENDC fault calm _)).
    unfold ret. cbn [self trace].
    destruct (press_keeps_snapshot key (self st)) as [Hl [Hc Ho]].
    eexists _, _, _. split; [reflexivity|]. cbn [self trace].
    split; [rewrite <- app_assoc; apply Htr|].
    split; [|split; [exact Hl | exact Hc]].
    apply Forall_app. split.
    + eapply Forall_impl; [|exact Hcur]. intros e [times ->]. reflexivity.
    + repeat constructor.
Qed.

End Unchanged.

(* ================================================================== *)
(** * Release after the first frame *)
(* ================================================================== *)

(** X9.  Once [init] and the first [print_lines] have gone through,
    every way [show] can end, whatever the environment does afterwards,
    has [deinit] as its last call: a return, and an exception raised by
    any later call, [deinit] itself included. *)
Theorem X9_after_the_first_frame_show_ends_on_deinit
        (ENDC : string) (fault : nat -> option exn)
        (geometry : nat -> terminal_size)
        (keys : list Key) (st : State) :
  fault (List.length (trace st)) = None ->
  fault (S (List.length (trace st))) = None ->
  fst (show ENDC fault geometry keys st) <> Blocked ->
  exists tr,
    trace (snd (show ENDC fault geometry keys st)) = tr ++ [KsDeinit].
Proof.
  intros H0 H1. unfold show.
  assert (Einit : call fault KsInit st
                  = (Normal tt, St (self st) (trace st ++ [KsInit])))
    by (unfold call; now rewrite H0).
  rewrite (bind_normal _ _ _ Einit).
  assert (Edraw :
            draw ENDC fault (St (self st) (trace st ++ [KsInit]))
            = (Normal tt,
               St (self st)
                  ((trace st ++ [KsInit])
                   ++ [PrintLines
                         (styled ENDC (self st) 0 (visible (self st)))
                         (_searching_buffer (self st))]))).
  { unfold draw, bind, get, lift, call. cbn [self trace].
    rewrite printable_options_visible.
    rewrite length_app, Nat.add_comm. cbn [List.length Nat.add].
    now rewrite H1. }
  rewrite (bind_normal _ _ _ Edraw).
  apply guarded_loop_releases.
Qed.

(* ================================================================== *)
(** * Keys that do nothing *)
(* ================================================================== *)

(** X10.  Outside a search, a pass on a key that is neither INTRO, an
    arrow nor SLASH (a typed character, BACKSPACE, any other special key)
    changes nothing, when no external call raises: no search starts, the
    options stay, and a selection index that was valid stays where it
    was. *)
Theorem X10_keys_outside_a_search_are_ignored
        (ENDC : string) (fault : nat -> option exn)
        (geometry : nat -> terminal_size)
        (calm : forall t, fault t = None)
        (st : State) (key : Key) :
  _searching (self st) = false ->
  is_key INTRO key = false ->
  is_key ARROW_UP key = false ->
  is_key ARROW_DOWN key = false ->
  is_key SLASH key = false ->
  exists st',
    iteration ENDC fault geometry (Some key) st = (Normal None, st')
    /\ _searching (self st') = false
    /\ options (self st') = options (self st)
    /\ (0 <= _selected_option (self st) < len (options (self st)) ->
        session_view (self st') = session_view (self st)).
Proof.
  intros Hs Hi Hu Hd Hsl.
  destruct (iteration_calm ENDC fault geometry calm key st Hi)
    as [st' [E V]].
  assert (Hpress : press key (self st) = self st)
    by (unfold press; now rewrite Hu, Hd, Hsl, Hs).
  unfold advance in V. rewrite Hpress in V.
  exists st'. split; [exact E|]. split.
  - unfold _searching. rewrite (view_buffer V). exact Hs.
  - split; [now rewrite (view_options V)|].
    intros Hsel. rewrite V. unfold reclamp.
    rewrite (visible_not_searching _ (not_searching_empty _ Hs)).
    replace (clamp (_selected_option (self st)) 0
                   (len (options (self st)) - 1))
      with (_selected_option (self st)) by (unfold clamp; lia).
    destruct (self st); reflexivity.
Qed.

(* ================================================================== *)
(** * Which line is highlighted *)
(* ================================================================== *)

Lemma styled_nth ENDC self l :
  forall index i option,
    nth_error l i = Some option ->
    nth_error (styled ENDC self index l) i
    = Some (style_option ENDC self (index + Z.of_nat i) option).
Proof.
  induction l as [|o l IH]; intros index i option H.
  - destruct i; discriminate.
  - destruct i as [|i]; simpl in H |- *.
    + injection H as <-. now rewrite Z.add_0_r.
    + rewrite (IH _ _ _ H). f_equal. f_equal. lia.
Qed.

Lemma styled_plain ENDC self l :
  forall index,
    _selected_option self < index
    \/ index + len l <= _selected_option self ->
    styled ENDC self index l = map (plain_line ENDC self) l.
Proof.
  induction l as [|o l IH]; intros index H; [reflexivity|].
  cbn [styled map]. unfold len in H. cbn [List.length] in H.
  rewrite IH by (unfold len; lia).
  unfold style_option, plain_line.
  replace (index =? _selected_option self) with false
    by (symmetry; apply Z.eqb_neq; lia).
  reflexivity.
Qed.

(** X11.  [_printable_options] yields one line per filtered option, in
    order.  The line at position [i] is the option between [prechar] and
    [ENDC], with the colour and style codes in front of the option
    exactly when [i] is the selection index; a selection index that is
    negative or beyond the filtered list highlights no line at all. *)
Theorem X11_only_the_selected_line_is_highlighted
        (ENDC : string) (self : MultiPySimpleMenu) :
  exists available printable,
    available_options self = Normal available
    /\ _printable_options ENDC self = Normal printable
    /\ List.length printable = List.length available
    /\ (forall i option,
           nth_error available i = Some option ->
           nth_error printable i
           = Some (if Z.of_nat i =? _selected_option self
                   then (prechar self
                         ++ (color_value (selected_color self)
                             ++ style_value (selected_style self) ++ option)
                         ++ ENDC)%string
                   else plain_line ENDC self option))
    /\ (_selected_option self < 0
        \/ len available <= _selected_option self ->
        printable = map (plain_line ENDC self) available).
Proof.
  exists (visible self), (styled ENDC self 0 (visible self)).
  split; [apply available_options_visible|].
  split; [apply printable_options_visible|].
  split; [apply styled_length|]. split.
  - intros i option H. rewrite (styled_nth ENDC self _ 0 _ H).
    unfold style_option, plain_line. cbn [Z.add].
    destruct (Z.of_nat i =? _selected_option self); reflexivity.
  - intros H. apply styled_plain. lia.
Qed.

(* ================================================================== *)
(** * [default_option] is never read *)
(* ================================================================== *)

Lemma styled_blind ENDC d m index l :
  styled ENDC (with_default_option d m) index l = styled ENDC m index l.
Proof.
  revert index; induction l as [|o l IH]; intros index; simpl;
    [reflexivity|].
  now rewrite IH.
Qed.

Lemma printable_blind ENDC d m :
  _printable_options ENDC (with_default_option d m)
  = _printable_options ENDC m.
Proof.
  rewrite !printable_options_visible. f_equal. apply styled_blind.
Qed.

Section Blind.

Variable fault : nat -> option exn.
Variable geometry : nat -> terminal_size.

Lemma blind_ret {A} (a : A) : blind (ret a).
Proof. intros d st; reflexivity. Qed.

Lemma blind_raise {A} e : blind (@raise A e).
Proof. intros d st; reflexivity. Qed.

Lemma blind_block {A} : blind (@block A).
Proof. intros d st; reflexivity. Qed.

Lemma blind_lift {A} (r : result A) : blind (lift r).
Proof. intros d st; reflexivity. Qed.

Lemma blind_call e : blind (call fault e).
Proof.
  intros d st. unfold call, with_default. cbn [self trace].
  destruct (fault _); reflexivity.
Qed.

Lemma blind_size : blind (os_get_terminal_size fault geometry).
Proof.
  intros d st. unfold os_get_terminal_size, call, with_default.
  cbn [self trace]. destruct (fault _); reflexivity.
Qed.

Lemma blind_modify f :
  (forall d m, f (with_default_option d m) = with_default_option d (f m)) ->
  blind (modify f).
Proof.
  intros H d st. unfold modify, with_default. cbn [self trace fst snd].
  now rewrite H.
Qed.

Lemma blind_bind {A B} (c : M A) (k : A -> M B) :
  blind c -> (forall a, blind (k a)) -> blind (bind c k).
Proof.
  intros Hc Hk d st. unfold bind. rewrite Hc.
  destruct (c st) as [[a|e|] st1]; cbn [fst snd]; try reflexivity.
  apply Hk.
Qed.

Lemma blind_try_finally {A} (body : M A) (cleanup : M unit) :
  blind body -> blind cleanup -> blind (try_finally body cleanup).
Proof.
  intros Hb Hc d st. unfold try_finally. rewrite Hb.
  destruct (body st) as [[a|e|] st1]; cbn [fst snd]; try reflexivity;
    rewrite Hc; destruct (cleanup st1) as [[u|e'|] st2]; reflexivity.
Qed.

Lemma blind_get {A} (k : MultiPySimpleMenu -> M A) :
  blind_reader k -> blind (bind get k).
Proof. intros Hk d st. unfold bind, get. cbn [self with_default]. apply Hk. Qed.

Lemma blind_reader_ext {A} (k : MultiPySimpleMenu -> M A) :
  (forall d m, k (with_default_option d m) = k m) ->
  (forall m, blind (k m)) ->
  blind_reader k.
Proof. intros H1 H2 d m st. rewrite H1. apply H2. Qed.

End Blind.

Ltac blindly :=
  repeat first
    [ apply blind_get; apply blind_reader_ext;
      [ intros ? ?; cbv beta; rewrite ?printable_blind; reflexivity
      | intros ? ]
    | apply blind_bind; [|intros ?]
    | apply blind_ret | apply blind_raise | apply blind_block
    | apply blind_lift | apply blind_call | apply blind_size
    | apply blind_modify; intros ? ?; reflexivity
    | match goal with
      | |- blind (if ?b then _ else _) => destruct b
      | |- blind (match ?x with _ => _ end) => destruct x
      end ].

Section BlindShow.

Variable ENDC : string.
Variable fault : nat -> option exn.
Variable geometry : nat -> terminal_size.

Lemma blind_draw : blind (draw ENDC fault).
Proof. unfold draw. blindly. Qed.

Lemma blind_refresh : blind (refresh_on_resize ENDC fault geometry).
Proof.
  unfold refresh_on_resize, _terminal_resized. blindly.
Qed.

Lemma blind_confirm : blind (confirm ENDC fault geometry).
Proof. unfold confirm. blindly. Qed.

Lemma blind_dispatch key : blind (dispatch fault key).
Proof. unfold dispatch. blindly. Qed.

Lemma blind_reclamp : blind (reclamp_and_redraw ENDC fault).
Proof. unfold reclamp_and_redraw. blindly. Qed.

Lemma blind_iteration input : blind (iteration ENDC fault geometry input).
Proof.
  unfold iteration.
  apply blind_bind; [apply blind_refresh | intros _].
  apply blind_bind; [apply blind_call | intros _].
  destruct input as [key|]; [|apply blind_block].
  destruct (is_key INTRO key).
  - apply blind_bind; [apply blind_confirm | intros v; apply blind_ret].
  - apply blind_bind; [apply blind_dispatch | intros _].
    apply blind_bind; [apply blind_reclamp | intros _]. apply blind_ret.
Qed.

Lemma blind_loop keys : blind (loop ENDC fault geometry keys).
Proof.
  induction keys as [|key keys IH]; cbn [loop].
  - apply blind_bind; [apply blind_iteration | intros _; apply blind_block].
  - apply blind_bind; [apply blind_iteration|].
    intros [v|]; [apply blind_ret | exact IH].
Qed.

Lemma blind_show keys : blind (show ENDC fault geometry keys).
Proof.
  unfold show, guarded_loop.
  apply blind_bind; [apply blind_call | intros _].
  apply blind_bind; [apply blind_draw | intros _].
  apply blind_try_finally; [apply blind_loop | apply blind_call].
Qed.

End BlindShow.

(** X12.  [show] never reads [default_option] and never assigns to it:
    run on a menu that differs in [default_option] alone, it makes the
    same calls with the same arguments and ends the same way, whatever the
    keys and the environment.  So two menus built by [__init__] from the
    same options and different defaults behave alike. *)
Theorem X12_show_does_not_depend_on_default_option
        (ENDC : string) (fault : nat -> option exn)
        (geometry : nat -> terminal_size) (keys : list Key) :
  (forall d st,
      show ENDC fault geometry keys (with_default d st)
      = (fst (show ENDC fault geometry keys st),
         with_default d (snd (show ENDC fault geometry keys st))))
  /\ (forall NONE UNDERLINE import_lines import_columns options d1 d2 tr,
         let run d :=
           show ENDC fault geometry keys
                (St (configured NONE UNDERLINE import_lines import_columns
                                options d) tr) in
         fst (run d1) = fst (run d2)
         /\ trace (snd (run d1)) = trace (snd (run d2))).
Proof.
  split; [intros d st; apply blind_show|].
  intros NONE UNDERLINE il ic options d1 d2 tr run. unfold run.
  change (St (configured NONE UNDERLINE il ic options d1) tr)
    with (with_default d1
            (St (configured NONE UNDERLINE il ic options d2) tr)).
  rewrite blind_show. split; reflexivity.
Qed.

(* ================================================================== *)
(** * What is on the screen when the loop waits for a key *)
(* ================================================================== *)

Section Passes.

Variable ENDC : string.
Variable fault : nat -> option exn.
Variable geometry : nat -> terminal_size.

Hypothesis calm : forall t, fault t = None.

(** A pass on a key other than INTRO, call by call after the resize
    check. *)
Lemma iteration_exact key st :
  is_key INTRO key = false ->
  exists st1 moves,
    refresh_on_resize ENDC fault geometry st = (Normal tt, st1)
    /\ session_view (self st1) = session_view (self st)
    /\ Forall is_cursor_move moves
    /\ iteration ENDC fault geometry (Some key) st
       = (Normal None,
          St (reclamp (press key (self st1)))
             (trace st1 ++ [KsReadch] ++ moves
              ++ [DeleteAllLines
                    (_searching_buffer (press key (self st1)))
                    (_terminal_last_line_size (press key (self st1)));
                  PrintLines
                    (styled ENDC (reclamp (press key (self st1))) 0
                            (visible (press key (self st1))))
                    (_searching_buffer (press key (self st1)))])).
Proof.
  intros Hk. unfold iteration.
  destruct (refresh_calm ENDC fault geometry calm st) as [st1 [E1 V1]].
  exists st1.
  destruct (dispatch_calm fault calm key
              (St (self st1) (trace st1 ++ [KsReadch]))) as [tr2 [E2 Hcur]].
  exists tr2. split; [exact E1|]. split; [exact V1|]. split; [exact Hcur|].
  rewrite (bind_normal _ _ _ E1).
  rewrite (bind_normal _ _ _ (call_calm fault calm KsReadch st1)), Hk.
  rewrite (bind_normal _ _ _ E2).
  rewrite (bind_normal _ _ _ (reclamp_calm ENDC fault calm _)).
  unfold ret. cbn [self trace]. now rewrite <- !app_assoc.
Qed.

End Passes.

(** X13.  A pass on a key other than INTRO (no external call raising)
    ends with [delete_all_lines] followed by [print_lines], and what it
    prints is the visible list and the search buffer of the state it
    leaves: the frame on the screen is the frame of the state, selection
    already clamped, whenever the loop goes back to wait for a key. *)
Theorem X13_each_pass_ends_on_the_frame_of_its_state
        (ENDC : string) (fault : nat -> option exn)
        (geometry : nat -> terminal_size)
        (calm : forall t, fault t = None)
        (st : State) (key : Key) :
  is_key INTRO key = false ->
  exists st' before printable,
    iteration ENDC fault geometry (Some key) st = (Normal None, st')
    /\ _printable_options ENDC (self st') = Normal printable
    /\ trace st'
       = before
         ++ [DeleteAllLines (_searching_buffer (self st'))
                            (_terminal_last_line_size (self st'));
             PrintLines printable (_searching_buffer (self st'))].
Proof.
  intros Hk.
  destruct (iteration_exact ENDC fault geometry calm key st Hk)
    as (st1 & moves & _ & _ & _ & E).
  rewrite E. eexists _, (trace st1 ++ [KsReadch] ++ moves), _.
  split; [reflexivity|]. cbn [self trace].
  split; [apply printable_options_visible|].
  now rewrite <- !app_assoc.
Qed.

(* ================================================================== *)
(** * Deleting the whole search *)
(* ================================================================== *)





(* ================================================================== *)
(** * One resize, one clearing of the screen *)
(* ================================================================== *)

Lemma clears_app tr tr' : clears (tr ++ tr') = (clears tr + clears tr')%nat.
Proof. unfold clears. now rewrite filter_app, length_app. Qed.

Lemma clears_none tr :
  Forall (fun e => is_clear e = false) tr -> clears tr = 0%nat.
Proof. intros H. unfold clears. now rewrite (filter_none _ H). Qed.

Lemma cursor_moves_clear_nothing moves :
  Forall is_cursor_move moves -> clears moves = 0%nat.
Proof.
  intros H. apply clears_none. eapply Forall_impl; [|exact H].
  intros e [times ->]. reflexivity.
Qed.

Section Steady.

Variable ENDC : string.
Variable fault : nat -> option exn.
Variable geometry : nat -> terminal_size.
Variable g : terminal_size.

Hypothesis calm : forall t, fault t = None.

(** What a pass on a key other than INTRO adds after its resize check:
    no clearing, and no change of the snapshot. *)
Lemma pass_after_refresh key st st1 :
  is_key INTRO key = false ->
  refresh_on_resize ENDC fault geometry st = (Normal tt, st1) ->
  exists st' tr,
    iteration ENDC fault geometry (Some key) st = (Normal None, st')
    /\ trace st' = trace st1 ++ tr
    /\ clears tr = 0%nat
    /\ _terminal_last_line_size (self st')
       = _terminal_last_line_size (self st1)
    /\ _terminal_last_column_size (self st')
       = _terminal_last_column_size (self st1).
Proof.
  intros Hk E1.
  destruct (iteration_exact ENDC fault geometry calm key st Hk)
    as (st1' & moves & E1' & _ & Hmoves & E).
  rewrite E1 in E1'. injection E1' as <-.
  rewrite E. eexists _, _. split; [reflexivity|]. cbn [self trace].
  split; [reflexivity|].
  destruct (press_keeps_snapshot key (self st1)) as [Hl [Hc _]].
  split; [|split; [exact Hl | exact Hc]].
  rewrite !clears_app, (cursor_moves_clear_nothing Hmoves). reflexivity.
Qed.

(** On a terminal that keeps the size of the snapshot the loop never
    clears the screen. *)
Lemma loop_steady keys :
  Forall not_intro keys ->
  forall st,
    (forall t, (List.length (trace st) <= t)%nat -> geometry t = g) ->
    _terminal_last_line_size (self st) = lines g ->
    _terminal_last_column_size (self st) = columns g ->
    exists st' tr,
      loop ENDC fault geometry keys st = (Blocked, st')
      /\ trace st' = trace st ++ tr
      /\ clears tr = 0%nat.
Proof.
  induction 1 as [|key keys Hkey _ IH]; intros st Hstable Hl Hc;
    cbn [loop];
    assert (E1 : refresh_on_resize ENDC fault geometry st
                 = (Normal tt,
                    St (self st)
                       (trace st ++ [GetTerminalSize; GetTerminalSize])))
      by (apply (@refresh_unchanged ENDC fault geometry st calm);
          rewrite Hstable by lia; congruence).
  - exists (St (self st)
               ((trace st ++ [GetTerminalSize; GetTerminalSize])
                ++ [KsReadch])),
           [GetTerminalSize; GetTerminalSize; KsReadch].
    split; [|split; [cbn [trace]; now rewrite <- app_assoc | reflexivity]].
    unfold iteration, bind. now rewrite E1, (call_calm fault calm).
  - destruct (pass_after_refresh key st Hkey E1)
      as (st1 & tr1 & E & Ht1 & Hc1 & Hl1 & Hcol1).
    rewrite (bind_normal _ _ _ E). cbn [self trace] in *.
    destruct (IH st1) as (st' & tr & E' & Ht & Hcl).
    + intros t Ht'. apply Hstable. rewrite Ht1, !length_app in Ht'. lia.
    + congruence.
    + congruence.
    + exists st', ([GetTerminalSize; GetTerminalSize] ++ tr1 ++ tr).
      split; [exact E'|]. split.
      * rewrite Ht, Ht1. now rewrite <- !app_assoc.
      * rewrite !clears_app, Hc1, Hcl. reflexivity.
Qed.

End Steady.

(** X15.  When the terminal has changed size once (it measures [g], not
    the snapshot, and keeps measuring [g]; no external call raising), the
    loop clears the screen exactly once, in the first pass, however many
    keys other than INTRO follow. *)
Theorem X15_one_resize_clears_the_screen_once
        (ENDC : string) (fault : nat -> option exn)
        (geometry : nat -> terminal_size)
        (calm : forall t, fault t = None)
        (st : State) (g : terminal_size) (keys : list Key) :
  (forall t, (List.length (trace st) <= t)%nat -> geometry t = g) ->
  lines g <> _terminal_last_line_size (self st)
  \/ columns g <> _terminal_last_column_size (self st) ->
  Forall not_intro keys ->
  exists st' tr,
    loop ENDC fault geometry keys st = (Blocked, st')
    /\ trace st' = trace st ++ tr
    /\ clears tr = 1%nat.
Proof.
  intros Hstable Hdiffers Hkeys.
  destruct (@refresh_resized ENDC fault geometry st g calm Hstable Hdiffers)
    as [probes [Hprobes E1]].
  assert (Hp : clears probes = 0%nat).
  { apply clears_none. eapply Forall_impl; [|exact Hprobes].
    intros e <-. reflexivity. }
  set (first := probes
                ++ [ClearTerminal;
                    PrintLines
                      (styled ENDC (resnapped g (self st)) 0
                              (visible (self st)))
                      (_searching_buffer (self st))]) in *.
  assert (Hfirst : clears first = 1%nat)
    by (unfold first; rewrite clears_app, Hp; reflexivity).
  destruct Hkeys as [|key keys Hkey Hrest]; cbn [loop].
  - exists (St (resnapped g (self st)) ((trace st ++ first) ++ [KsReadch])),
           (first ++ [KsReadch]).
    split; [|split].
    + unfold iteration, bind. now rewrite E1, (call_calm fault calm).
    + cbn [trace]. now rewrite <- app_assoc.
    + rewrite clears_app, Hfirst. reflexivity.
  - destruct (@pass_after_refresh ENDC fault geometry calm key st _ Hkey E1)
      as (st1 & tr1 & E & Ht1 & Hc1 & Hl1 & Hcol1).
    rewrite (bind_normal _ _ _ E). cbn [self trace] in *.
    destruct (@loop_steady ENDC fault geometry g calm keys Hrest st1)
      as (st' & tr & E' & Ht & Hcl).
    + intros t Ht'. apply Hstable. rewrite Ht1, !length_app in Ht'. lia.
    + exact Hl1.
    + exact Hcol1.
    + exists st', (first ++ tr1 ++ tr).
      split; [exact E'|]. split.
      * rewrite Ht, Ht1. now rewrite <- !app_assoc.
      * rewrite !clears_app, Hfirst, Hc1, Hcl. reflexivity.
Qed.

(* ================================================================== *)
(** * The further properties at concrete inputs *)
(* ================================================================== *)

(** X1 on the three options: arrow-down, INTRO, and a key that is never
    read. *)
Lemma X1_witness :
  let keys := [Special ARROW_DOWN; Special INTRO; Special ARROW_UP] in
  let run :=
    show reset_marker never_raises (steady (TerminalSize 80 24)) keys
         (fresh (greek 0)) in
  run = (Normal (Some 1), snd run)
  /\ exists pre rest tr,
      keys = pre ++ Special INTRO :: rest
      /\ Forall not_intro pre
      /\ trace (snd run) = trace (fresh (greek 0)) ++ tr
      /\ reads tr = S (List.length pre).
Proof.
  intros keys run.
  assert (Hrun : run = (Normal (Some 1), snd run))
    by (vm_compute; reflexivity).
  split; [exact Hrun|].
  exact (X1_show_reads_up_to_the_first_intro
           reset_marker never_raises (steady (TerminalSize 80 24))
           keys (fresh (greek 0)) Hrun).
Defined.

(** X2 on the three options: arrow-down before INTRO, arrow-up behind. *)
Lemma X2_witness :
  let pre := [Special ARROW_DOWN] in
  let rest := [Special ARROW_UP] in
  let run :=
    show reset_marker never_raises (steady (TerminalSize 80 24))
         (pre ++ Special INTRO :: rest) (fresh (greek 0)) in
  (forall t, never_raises t = None)
  /\ Forall not_intro pre
  /\ fst run = Normal (outcome (fold_left advance pre (greek 0)))
  /\ session_view (self (snd run))
     = session_view (fold_left advance pre (greek 0)).
Proof.
  intros pre rest run.
  assert (Hpre : Forall not_intro pre) by (repeat constructor).
  split; [exact never_raises_calm|]. split; [exact Hpre|].
  exact (@X2_show_returns_the_outcome_of_the_keys_before_intro
           reset_marker never_raises (steady (TerminalSize 80 24))
           never_raises_calm pre rest (fresh (greek 0)) Hpre).
Defined.

(** X3 on the three options: a search for B, then INTRO. *)
Lemma X3_witness :
  let pre := [Special SLASH; Str "B"] in
  let st := fresh (greek 0) in
  let run :=
    show reset_marker never_raises (steady (TerminalSize 80 24))
         (pre ++ Special INTRO :: []) st in
  (forall t, never_raises t = None)
  /\ Forall not_intro pre
  /\ (pre <> []
      \/ 0 <= _selected_option (self st)
         < Z.max 1 (len (visible (self st))))
  /\ exists v available,
      fst run = Normal v
      /\ available_options (self (snd run)) = Normal available
      /\ match v with
         | Some i => 0 <= i < len available
         | None => available = []
         end.
Proof.
  intros pre st run.
  assert (Hpre : Forall not_intro pre) by (repeat constructor).
  assert (Hstart : pre <> []
                   \/ 0 <= _selected_option (self st)
                      < Z.max 1 (len (visible (self st))))
    by (left; discriminate).
  split; [exact never_raises_calm|]. split; [exact Hpre|].
  split; [exact Hstart|].
  exact (@X3_show_returns_an_index_of_the_filtered_list
           reset_marker never_raises (steady (TerminalSize 80 24))
           never_raises_calm pre [] st Hpre Hstart).
Defined.

(** X4 on a menu without options: two arrows, then INTRO. *)
Lemma X4_witness :
  let pre := [Special ARROW_DOWN; Special ARROW_UP] in
  let st := fresh (configured no_color underline 24 80 [] 0) in
  (forall t, never_raises t = None)
  /\ Forall not_intro pre
  /\ options (self st) = []
  /\ fst (show reset_marker never_raises (steady (TerminalSize 80 24))
               (pre ++ Special INTRO :: []) st)
     = Normal None.
Proof.
  intros pre st.
  assert (Hpre : Forall not_intro pre) by (repeat constructor).
  split; [exact never_raises_calm|]. split; [exact Hpre|].
  split; [reflexivity|].
  exact (@X4_show_on_no_options_returns_none
           reset_marker never_raises (steady (TerminalSize 80 24))
           never_raises_calm pre [] st Hpre eq_refl).
Defined.

(** X5 on the three options: B typed into a search that has just
    begun. *)
Lemma X5_witness :
  let st := fresh (set_searching_buffer "/" (greek 0)) in
  (forall t, never_raises t = None)
  /\ _searching (self st) = true
  /\ exists st' before after,
      iteration reset_marker never_raises (steady (TerminalSize 80 24))
                (Some (Str "B")) st = (Normal None, st')
      /\ _searching_buffer (self st')
         = (_searching_buffer (self st) ++ "B")%string
      /\ available_options (self st) = Normal before
      /\ available_options (self st') = Normal after
      /\ after
         = filter (String.prefix (drop_first (_searching_buffer (self st'))))
                  before
      /\ len after <= len before.
Proof.
  intros st.
  split; [exact never_raises_calm|]. split; [reflexivity|].
  exact (X5_typing_narrows_the_filtered_list
           reset_marker never_raises (steady (TerminalSize 80 24))
           never_raises_calm st "B" eq_refl).
Defined.

(** X6 on the three options, the last one selected: B typed into the
    search and deleted again. *)
Lemma X6_witness :
  let st :=
    fresh (set_selected_option 2 (set_searching_buffer "/" (greek 0))) in
  let final :=
    self (snd (loop reset_marker never_raises (steady (TerminalSize 80 24))
                    [Str "B"; Special BACKSPACE] st)) in
  (forall t, never_raises t = None)
  /\ _searching_buffer final = _searching_buffer (self st)
  /\ available_options final = available_options (self st)
  /\ (0 <= _selected_option (self st) ->
      0 <= _selected_option final <= _selected_option (self st)).
Proof.
  intros st final.
  split; [exact never_raises_calm|].
  exact (X6_type_then_backspace
           reset_marker never_raises (steady (TerminalSize 80 24))
           never_raises_calm st "B").
Defined.

(** X7 on the three options: BACKSPACE on a search for B. *)
Lemma X7_witness :
  let st := fresh (set_searching_buffer "/B" (greek 0)) in
  let run :=
    iteration reset_marker never_raises (steady (TerminalSize 80 24))
              (Some (Special BACKSPACE)) st in
  run = (Normal None, snd run)
  /\ exists tr,
      trace (snd run) = trace st ++ tr
      /\ filter is_cursor_call tr
         = cursor_calls (Special BACKSPACE) (self st).
Proof.
  intros st run.
  assert (Hrun : run = (Normal None, snd run)) by (vm_compute; reflexivity).
  split; [exact Hrun|].
  exact (X7_cursor_moves_back_only_for_backspace_in_a_search
           reset_marker never_raises (steady (TerminalSize 80 24))
           (Special BACKSPACE) st Hrun).
Defined.

(** X8 on the three options, the terminal still at 24 lines and 80
    columns. *)
Lemma X8_witness :
  let st := fresh (greek 0) in
  let geometry := steady (TerminalSize 80 24) in
  (forall t, never_raises t = None)
  /\ lines (geometry (List.length (trace st)))
     = _terminal_last_line_size (self st)
  /\ columns (geometry (S (List.length (trace st))))
     = _terminal_last_column_size (self st)
  /\ exists later r st',
      iteration reset_marker never_raises geometry
                (Some (Special ARROW_DOWN)) st = (Normal r, st')
      /\ trace st'
         = trace st ++ [GetTerminalSize; GetTerminalSize; KsReadch] ++ later
      /\ Forall (fun e => is_clear e = false) later
      /\ _terminal_last_line_size (self st')
         = _terminal_last_line_size (self st)
      /\ _terminal_last_column_size (self st')
         = _terminal_last_column_size (self st).
Proof.
  intros st geometry.
  split; [exact never_raises_calm|]. split; [reflexivity|].
  split; [reflexivity|].
  exact (@X8_no_resize_no_clear
           reset_marker never_raises geometry st
           never_raises_calm eq_refl eq_refl (Special ARROW_DOWN)).
Defined.

(** X9 on the three options, when the first [readch] raises. *)
Lemma X9_witness :
  let st := fresh (greek 0) in
  let run :=
    show reset_marker (raises_at 4) (steady (TerminalSize 80 24))
         [Special INTRO] st in
  raises_at 4 (List.length (trace st)) = None
  /\ raises_at 4 (S (List.length (trace st))) = None
  /\ fst run = Raised (EnvError 4)
  /\ exists tr, trace (snd run) = tr ++ [KsDeinit].
Proof.
  intros st run.
  assert (Hrun : fst run = Raised (EnvError 4)) by (vm_compute; reflexivity).
  assert (Hends : fst run <> Blocked) by (rewrite Hrun; discriminate).
  split; [reflexivity|]. split; [reflexivity|]. split; [exact Hrun|].
  exact (@X9_after_the_first_frame_show_ends_on_deinit
           reset_marker (raises_at 4) (steady (TerminalSize 80 24))
           [Special INTRO] st eq_refl eq_refl Hends).
Defined.

(** X10 on the three options: a letter typed outside a search. *)
Lemma X10_witness :
  let st := fresh (greek 0) in
  (forall t, never_raises t = None)
  /\ _searching (self st) = false
  /\ exists st',
      iteration reset_marker never_raises (steady (TerminalSize 80 24))
                (Some (Str "x")) st = (Normal None, st')
      /\ _searching (self st') = false
      /\ options (self st') = options (self st)
      /\ (0 <= _selected_option (self st) < len (options (self st)) ->
          session_view (self st') = session_view (self st)).
Proof.
  intros st.
  split; [exact never_raises_calm|]. split; [reflexivity|].
  exact (X10_keys_outside_a_search_are_ignored
           reset_marker never_raises (steady (TerminalSize 80 24))
           never_raises_calm st (Str "x")
           eq_refl eq_refl eq_refl eq_refl eq_refl).
Defined.

(** X13 on the three options: arrow-down. *)
Lemma X13_witness :
  let st := fresh (greek 0) in
  (forall t, never_raises t = None)
  /\ is_key INTRO (Special ARROW_DOWN) = false
  /\ exists st' before printable,
      iteration reset_marker never_raises (steady (TerminalSize 80 24))
                (Some (Special ARROW_DOWN)) st = (Normal None, st')
      /\ _printable_options reset_marker (self st') = Normal printable
      /\ trace st'
         = before
           ++ [DeleteAllLines (_searching_buffer (self st'))
                              (_terminal_last_line_size (self st'));
               PrintLines printable (_searching_buffer (self st'))].
Proof.
  intros st.
  split; [exact never_raises_calm|]. split; [reflexivity|].
  exact (X13_each_pass_ends_on_the_frame_of_its_state
           reset_marker never_raises (steady (TerminalSize 80 24))
           never_raises_calm st (Special ARROW_DOWN) eq_refl).
Defined.


(** X15 on the three options, the terminal grown to 30 lines and 100
    columns: arrow-down, arrow-up. *)
Lemma X15_witness :
  let st := fresh (greek 0) in
  let g := TerminalSize 100 30 in
  let keys := [Special ARROW_DOWN; Special ARROW_UP] in
  (forall t, never_raises t = None)
  /\ (forall t, (List.length (trace st) <= t)%nat -> steady g t = g)
  /\ (lines g <> _terminal_last_line_size (self st)
      \/ columns g <> _terminal_last_column_size (self st))
  /\ Forall not_intro keys
  /\ exists st' tr,
      loop reset_marker never_raises (steady g) keys st = (Blocked, st')
      /\ trace st' = trace st ++ tr
      /\ clears tr = 1%nat.
Proof.
  intros st g keys.
  assert (Hstable : forall t, (List.length (trace st) <= t)%nat ->
                              steady g t = g)
    by (intros t _; reflexivity).
  assert (Hdiffers : lines g <> _terminal_last_line_size (self st)
                     \/ columns g <> _terminal_last_column_size (self st))
    by (left; discriminate).
  assert (Hkeys : Forall not_intro keys) by (repeat constructor).
  split; [exact never_raises_calm|]. split; [exact Hstable|].
  split; [exact Hdiffers|]. split; [exact Hkeys|].
  exact (@X15_one_resize_clears_the_screen_once
           reset_marker never_raises (steady g) never_raises_calm
           st g keys Hstable Hdiffers Hkeys).
Defined.
